(** * json_to_models/models/base.py: the code-emission stage

    A shallow embedding of [template], [GenericModelCodeGenerator],
    [_generate_code], [generate_code] and [sort_kwargs], and the properties
    of the natural-language specification checked against them.

    Conventions.
    - A Python [str] is a [string]; a character is a code point below 256.
    - A Python [dict] is an association list in insertion order with
      pairwise distinct keys ([dict_wf]).
    - A call that may raise returns a [result]; code that may also consult
      the process-wide [AbsoluteModelRef._context] is a reader over it ([R]).
    - An object that the code mutates in place (the [kwargs] of
      [sort_kwargs], the [_context] slot) is passed in and handed back. *)

From Stdlib Require Import String Ascii List ZArith Lia Bool Permutation.
Import ListNotations.
Local Open Scope string_scope.
Local Open Scope list_scope.

Set Implicit Arguments.

(** String concatenation, Python's [+] on [str]. *)
Infix "+++" := String.append (at level 60, right associativity).

(* ================================================================== *)
(** * Part I. Definitions *)
(* ================================================================== *)

(** ** Exceptions and results *)

Inductive exception : Type :=
| ValueError (msg : string)
| KeyError (key : string)
| IndexError
| AttributeError (attr : string)
| TypeError (argument : string)
| Propagated (what : string).

Inductive result (A : Type) : Type :=
| Ok (a : A)
| Raise (e : exception).

Arguments Ok {A} a.
Arguments Raise {A} e.

(** ** Sequencing code that may raise

    One notation for the three ways code runs here: code that may raise
    ([result]), code that may raise and mutates an object it was handed
    ([stateful]), code that may raise and reads the active resolution
    context ([reader]). *)

Class Monad (m : Type -> Type) : Type := {
  ret : forall {A : Type}, A -> m A;
  bind : forall {A B : Type}, m A -> (A -> m B) -> m B
}.

Notation "x <- c ;; k" := (bind c (fun x => k))
  (at level 61, c at next level, right associativity).
Notation "' pat <- c ;; k" := (bind c (fun x => match x with pat => k end))
  (at level 61, pat pattern, c at next level, right associativity).

Definition result_bind {A B : Type} (c : result A) (k : A -> result B) : result B :=
  match c with
  | Ok a => k a
  | Raise e => Raise e
  end.

#[export] Instance result_monad : Monad result :=
  {| ret := @Ok; bind := @result_bind |}.

(** The mutated object is handed back on both exits, so that what an
    exception leaves behind can be stated. *)
Definition stateful (St A : Type) : Type := St -> result A * St.

Definition stateful_bind {St A B : Type}
  (c : stateful St A) (k : A -> stateful St B) : stateful St B :=
  fun st =>
    match c st with
    | (Ok a, st') => k a st'
    | (Raise e, st') => (Raise e, st')
    end.

#[export] Instance stateful_monad (St : Type) : Monad (stateful St) :=
  {| ret := fun A a st => (Ok a, st); bind := @stateful_bind St |}.

Definition get {St : Type} : stateful St St := fun st => (Ok st, st).
Definition modify {St : Type} (f : St -> St) : stateful St unit :=
  fun st => (Ok tt, f st).
Definition raise_in {St A : Type} (e : exception) : stateful St A :=
  fun st => (Raise e, st).

Definition reader (Ctx A : Type) : Type := Ctx -> result A.

Definition reader_bind {Ctx A B : Type}
  (c : reader Ctx A) (k : A -> reader Ctx B) : reader Ctx B :=
  fun ctx =>
    match c ctx with
    | Ok a => k a ctx
    | Raise e => Raise e
    end.

#[export] Instance reader_monad (Ctx : Type) : Monad (reader Ctx) :=
  {| ret := fun A a _ => Ok a; bind := @reader_bind Ctx |}.

(** A pure computation that may raise, run inside [reader]. *)
Definition lift {Ctx A : Type} (c : result A) : reader Ctx A := fun _ => c.

(** A [for] loop: the loop variables are threaded through the iterations
    and the first exception ends the loop. *)
Section ForLoop.
Context {m : Type -> Type} {M : Monad m}.
Variables (A St : Type) (body : St -> A -> m St).

Fixpoint for_each (items : list A) (st : St) : m St :=
  match items with
  | [] => ret st
  | x :: rest => st' <- body st x ;; for_each rest st'
  end.
End ForLoop.

(** ** Python's built-in operations used by the module *)

Module Py.

Definition nl_char : ascii := "010"%char.
Definition nl : string := String nl_char EmptyString.

(** [str.isspace] on one code point below 256: TAB, LF, VT, FF, CR,
    FS, GS, RS, US, SPACE, NEL and NBSP. *)
Definition is_space (c : ascii) : bool :=
  let n := nat_of_ascii c in
  (((9 <=? n) && (n <=? 13)) || ((28 <=? n) && (n <=? 32))
   || (n =? 133) || (n =? 160))%nat.

(** Truth value of a [str]: non-empty. *)
Definition truthy (s : string) : bool :=
  match s with
  | EmptyString => false
  | String _ _ => true
  end.

Fixpoint lstrip (s : string) : string :=
  match s with
  | EmptyString => EmptyString
  | String c r => if is_space c then lstrip r else s
  end.

Fixpoint rstrip (s : string) : string :=
  match s with
  | EmptyString => EmptyString
  | String c r =>
      let r' := rstrip r in
      if negb (truthy r') && is_space c then EmptyString else String c r'
  end.

(** [s.strip()] *)
Definition strip (s : string) : string := rstrip (lstrip s).

(** [c in s] for a one-character [c]. *)
Fixpoint contains (c : ascii) (s : string) : bool :=
  match s with
  | EmptyString => false
  | String a r => Ascii.eqb a c || contains c r
  end.

(** [s.split(sep)] for a one-character separator: never the empty list. *)
Fixpoint split (sep : ascii) (s : string) : list string :=
  match s with
  | EmptyString => [EmptyString]
  | String a r =>
      if Ascii.eqb a sep then EmptyString :: split sep r
      else match split sep r with
           | [] => [String a EmptyString]
           | w :: ws => String a w :: ws
           end
  end.

(** [sep.join(parts)] *)
Fixpoint join (sep : string) (parts : list string) : string :=
  match parts with
  | [] => EmptyString
  | [p] => p
  | p :: ps => p +++ sep +++ join sep ps
  end.

(** [s[:n]] and [s[n:]] for [n >= 0]. *)
Fixpoint slice_to (s : string) (n : nat) : string :=
  match n, s with
  | S n', String a r => String a (slice_to r n')
  | _, _ => EmptyString
  end.

Fixpoint slice_from (s : string) (n : nat) : string :=
  match n, s with
  | S n', String _ r => slice_from r n'
  | _, _ => s
  end.

(** Sequence indexing: a negative index counts from the end; an index
    out of range raises [IndexError]. *)
Definition norm_index {A : Type} (l : list A) (i : Z) : result nat :=
  let len := Z.of_nat (List.length l) in
  let j := if (i <? 0)%Z then (i + len)%Z else i in
  if ((0 <=? j) && (j <? len))%Z then Ok (Z.to_nat j) else Raise IndexError.

Fixpoint remove_at {A : Type} (l : list A) (n : nat) : list A :=
  match l, n with
  | [], _ => []
  | _ :: r, O => r
  | a :: r, S n' => a :: remove_at r n'
  end.

(** [l[i]] *)
Definition getitem {A : Type} (l : list A) (i : Z) : result A :=
  n <- norm_index l i ;;
  match nth_error l n with
  | Some a => Ok a
  | None => Raise IndexError
  end.

(** [del l[i]]: the list after the deletion. *)
Definition delitem {A : Type} (l : list A) (i : Z) : result (list A) :=
  n <- norm_index l i ;;
  Ok (remove_at l n).

(** [enumerate(items)] *)
Definition enumerate {A : Type} (items : list A) : list (nat * A) :=
  combine (seq 0 (List.length items)) items.

(** [bool(n)] *)
Definition bool_of_nat (n : nat) : bool := negb (Nat.eqb n 0).

(** *** Dictionaries *)

Definition dict (V : Type) : Type := list (string * V).

Section Dict.
Variable V : Type.

Definition keys (d : dict V) : list string := map fst d.

Definition dict_wf (d : dict V) : Prop := NoDup (keys d).

(** [d.get(k)] *)
Fixpoint dict_get (d : dict V) (k : string) : option V :=
  match d with
  | [] => None
  | (k', v) :: r => if String.eqb k k' then Some v else dict_get r k
  end.

(** [k in d] *)
Definition dict_in (k : string) (d : dict V) : bool :=
  match dict_get d k with
  | Some _ => true
  | None => false
  end.

(** [d[k]] *)
Definition dict_getitem (d : dict V) (k : string) : result V :=
  match dict_get d k with
  | Some v => Ok v
  | None => Raise (KeyError k)
  end.

(** The dictionary after [del d[k]]. *)
Definition dict_remove (d : dict V) (k : string) : dict V :=
  filter (fun e => negb (String.eqb k (fst e))) d.

(** [d.pop(k)]: the value and the dictionary after the call. *)
Definition dict_pop (d : dict V) (k : string) : result (V * dict V) :=
  v <- dict_getitem d k ;; Ok (v, dict_remove d k).

(** [d[k] = v]: an existing key keeps its position, a new one goes last. *)
Fixpoint dict_set (d : dict V) (k : string) (v : V) : dict V :=
  match d with
  | [] => [(k, v)]
  | (k', v') :: r =>
      if String.eqb k k' then (k, v) :: r else (k', v') :: dict_set r k v
  end.

(** The entries of [d], then those of [e], as a dictionary display with
    two unpackings builds it. *)
Definition dict_merge (d e : dict V) : dict V :=
  fold_left (fun acc kv => dict_set acc (fst kv) (snd kv)) e d.
End Dict.

End Py.

(** ** The template utility *)

(** Modelled from the spec: the constant [INDENT] of the package's
    [__init__] is not part of this module; the indent unit is four spaces. *)
Definition INDENT : string := "    ".

(** [template(pattern, indent)]: the text that is handed to
    [jinja2.Template]. *)
Definition template (pattern : string) (indent : string) : result string :=
  if Py.contains Py.nl_char pattern then
    let n := String.length indent in
    let lines := Py.split Py.nl_char pattern in
    lines <- for_each
               (fun lines i =>
                  line <- Py.getitem lines i ;;
                  if negb (Py.truthy (Py.strip line))
                  then Py.delitem lines i
                  else ret lines)
               [0%Z; (-1)%Z] lines ;;
    ret (Py.join Py.nl
           (map (fun line =>
                   if String.eqb (Py.slice_to line n) indent
                   then Py.slice_from line n
                   else line)
                lines))
  else ret pattern.

(** *** The same text, as the specification words it *)

Module TemplateSpec.

Fixpoint whitespace_only (s : string) : bool :=
  match s with
  | EmptyString => true
  | String c r => Py.is_space c && whitespace_only r
  end.

(** [Some rest] when [line] is [ind] followed by [rest]. *)
Fixpoint strip_prefix (ind line : string) : option string :=
  match ind, line with
  | EmptyString, _ => Some line
  | String a u, String b l =>
      if Ascii.eqb a b then strip_prefix u l else None
  | String _ _, EmptyString => None
  end.

(** One leading indent unit removed from a line that begins with it, any
    other line left as it is. *)
Definition dedent_line (ind line : string) : string :=
  match strip_prefix ind line with
  | Some rest => rest
  | None => line
  end.

(** A pattern with no newline is unchanged. Otherwise the leading line of
    the pattern is deleted when it is whitespace-only, the trailing line of
    the pattern is deleted when it is whitespace-only, and every remaining
    line is dedented by one unit. *)
Definition template_text (pattern ind : string) : string :=
  if Py.contains Py.nl_char pattern then
    let lines := Py.split Py.nl_char pattern in
    let leading := whitespace_only (List.hd EmptyString lines) in
    let trailing := whitespace_only (List.last lines EmptyString) in
    let kept := if leading then List.tl lines else lines in
    let kept := if trailing then List.removelast kept else kept in
    Py.join Py.nl (map (dedent_line ind) kept)
  else pattern.

End TemplateSpec.

(** ** The keyword ordering utility *)

(** An element of [ordering]: a string, or an iterable of names. *)
Inductive group : Type :=
| GroupStr (s : string)
| GroupNames (items : list string).

(** Which of the two dictionaries the variable [current] is bound to. *)
Inductive bucket : Type := First | Second.

Section SortKwargs.
Variable V : Type.

(** The objects of one call: the caller's [kwargs], mutated in place, and
    the locals. *)
Record sort_state : Type := {
  st_kwargs : Py.dict V;
  sorted_dict_1 : Py.dict V;
  sorted_dict_2 : Py.dict V;
  current : bucket
}.

(** [value = kwargs.pop(item)] *)
Definition kwargs_pop (item : string) : stateful sort_state V :=
  fun st =>
    match Py.dict_pop (st_kwargs st) item with
    | Ok (value, rest) =>
        (Ok value,
         {| st_kwargs := rest;
            sorted_dict_1 := sorted_dict_1 st;
            sorted_dict_2 := sorted_dict_2 st;
            current := current st |})
    | Raise e => (Raise e, st)
    end.

(** [current[item] = value]: the write lands in the dictionary that
    [current] is bound to. *)
Definition current_setitem (item : string) (value : V) : stateful sort_state unit :=
  modify (fun st =>
    match current st with
    | First =>
        {| st_kwargs := st_kwargs st;
           sorted_dict_1 := Py.dict_set (sorted_dict_1 st) item value;
           sorted_dict_2 := sorted_dict_2 st;
           current := First |}
    | Second =>
        {| st_kwargs := st_kwargs st;
           sorted_dict_1 := sorted_dict_1 st;
           sorted_dict_2 := Py.dict_set (sorted_dict_2 st) item value;
           current := Second |}
    end).

(** [current = sorted_dict_2] *)
Definition current_rebind : stateful sort_state unit :=
  modify (fun st =>
    {| st_kwargs := st_kwargs st;
       sorted_dict_1 := sorted_dict_1 st;
       sorted_dict_2 := sorted_dict_2 st;
       current := Second |}).

(** The body of the inner loop. *)
Definition sort_item (_ : unit) (item : string) : stateful sort_state unit :=
  st <- get ;;
  if Py.dict_in item (st_kwargs st) then
    value <- kwargs_pop item ;;
    current_setitem item value
  else ret tt.

(** The body of the outer loop. *)
Definition sort_group (_ : unit) (g : group) : stateful sort_state unit :=
  match g with
  | GroupStr s =>
      if negb (String.eqb s "*")
      then raise_in (ValueError ("Unknown kwarg group: " +++ s))
      else current_rebind
  | GroupNames items => for_each sort_item items tt
  end.

(** [sort_kwargs(kwargs, ordering)]: what the call returns or raises, and
    the caller's [kwargs] after the call. *)
Definition sort_kwargs (kwargs : Py.dict V) (ordering : list group)
  : result (Py.dict V) * Py.dict V :=
  let st0 := {| st_kwargs := kwargs;
                sorted_dict_1 := [];
                sorted_dict_2 := [];
                current := First |} in
  let (r, st) := for_each sort_group ordering tt st0 in
  (_ <- r ;;
   ret (Py.dict_merge
          (Py.dict_merge (Py.dict_merge [] (sorted_dict_1 st)) (st_kwargs st))
          (sorted_dict_2 st)),
   st_kwargs st).

End SortKwargs.

(** *** Vocabulary for the properties of [sort_kwargs] *)

(** [x in names] *)
Definition mem (x : string) (names : list string) : bool :=
  existsb (String.eqb x) names.

(** The names an element of [ordering] lists. *)
Definition group_names (g : group) : list string :=
  match g with
  | GroupNames items => items
  | GroupStr _ => []
  end.

(** Every name of the groups, in group order. *)
Definition mentioned (ordering : list group) : list string :=
  flat_map group_names ordering.

(** The groups before the first string of [ordering], and those after it. *)
Fixpoint pre_wildcard (ordering : list group) : list group :=
  match ordering with
  | [] => []
  | GroupStr _ :: _ => []
  | g :: rest => g :: pre_wildcard rest
  end.

Fixpoint post_wildcard (ordering : list group) : list group :=
  match ordering with
  | [] => []
  | GroupStr _ :: rest => rest
  | _ :: rest => post_wildcard rest
  end.

(** Every string of [ordering] is the wildcard. *)
Definition wildcards_only (ordering : list group) : bool :=
  forallb (fun g => match g with
                    | GroupStr s => String.eqb s "*"
                    | GroupNames _ => true
                    end) ordering.

Section SortKwargsVocabulary.
Variable V : Type.

(** The names of [names] that are keys of [kwargs], in the order of [names]. *)
Definition present (kwargs : Py.dict V) (names : list string) : list string :=
  filter (fun k => Py.dict_in k kwargs) names.

(** The entries of [kwargs] whose key is not in [names], in the order of
    [kwargs]. *)
Definition without (kwargs : Py.dict V) (names : list string) : Py.dict V :=
  filter (fun e => negb (mem (fst e) names)) kwargs.

(** The entries that one run of the inner loop moves out of [kwargs]. *)
Fixpoint picked (kwargs : Py.dict V) (names : list string) : Py.dict V :=
  match names with
  | [] => []
  | x :: rest =>
      match Py.dict_get kwargs x with
      | Some v => (x, v) :: picked (Py.dict_remove kwargs x) rest
      | None => picked kwargs rest
      end
  end.

(** What one iteration of the inner loop does to the objects of the call. *)
Definition place (st : sort_state V) (item : string) : sort_state V :=
  match Py.dict_get (st_kwargs st) item with
  | Some value =>
      match current st with
      | First =>
          {| st_kwargs := Py.dict_remove (st_kwargs st) item;
             sorted_dict_1 := Py.dict_set (sorted_dict_1 st) item value;
             sorted_dict_2 := sorted_dict_2 st;
             current := First |}
      | Second =>
          {| st_kwargs := Py.dict_remove (st_kwargs st) item;
             sorted_dict_1 := sorted_dict_1 st;
             sorted_dict_2 := Py.dict_set (sorted_dict_2 st) item value;
             current := Second |}
      end
  | None => st
  end.

(** What one iteration of the outer loop does when it does not raise. *)
Definition apply_group (st : sort_state V) (g : group) : sort_state V :=
  match g with
  | GroupStr _ =>
      {| st_kwargs := st_kwargs st;
         sorted_dict_1 := sorted_dict_1 st;
         sorted_dict_2 := sorted_dict_2 st;
         current := Second |}
  | GroupNames items => fold_left place items st
  end.

(** No key of [kwargs] is a key of either bucket. *)
Definition untouched (kwargs d1 d2 : Py.dict V) : Prop :=
  forall k, Py.dict_in k kwargs = true ->
            Py.dict_get d1 k = None /\ Py.dict_get d2 k = None.

End SortKwargsVocabulary.

(** A sequence of keys with every key kept at its first position only. *)
Fixpoint first_occurrences (names : list string) : list string :=
  match names with
  | [] => []
  | x :: rest =>
      x :: filter (fun y => negb (String.eqb x y)) (first_occurrences rest)
  end.

(** ** The collaborators of the module

    The types and helpers that [base.py] imports from the rest of the
    package, from [inflection] and from [jinja2] are parameters of the
    development. *)

Class Types : Type := {
  (** a field type descriptor *)
  MetaData : Type;
  (** one entry of an [ImportPathList] *)
  ImportPath : Type;
  (** the reference mapping held in [AbsoluteModelRef._context] *)
  ContextInjectionType : Type;
  (** a value of the keyword configuration of a generator *)
  KwargValue : Type
}.

Section Generator.
Context {T : Types}.

Definition ImportPathList : Type := list ImportPath.

(** [ModelMeta]: the name of a model and its fields. *)
Record ModelMeta : Type := {
  name : string;
  type : Py.dict MetaData
}.

(** Code that may raise and may consult the active resolution context. *)
Definition R (A : Type) : Type := reader ContextInjectionType A.

Class Collaborators : Type := {
  (** [sort_fields(model)]: the required and the optional field names *)
  sort_fields : ModelMeta -> R (list string * list string);
  (** [metadata_to_typing(meta)]: imports and type text *)
  metadata_to_typing : MetaData -> R (ImportPathList * string);
  (** [compile_imports(imports)]: the import block *)
  compile_imports : ImportPathList -> R string;
  (** [inflection.underscore(name)] *)
  underscore : string -> string
}.

Context {C : Collaborators}.

(** Modelled from the spec: the helper [indent] of the package's
    [__init__] is not part of this module; it prefixes every line of
    [text] with one indent unit. *)
Definition indent (text : string) : string :=
  Py.join Py.nl (map (fun line => INDENT +++ line) (Py.split Py.nl_char text)).

(** Modelled from the spec: the constant [OBJECTS_DELIMITER] of the
    package's [__init__] is not part of this module; it leaves two blank
    lines between declarations. *)
Definition OBJECTS_DELIMITER : string := Py.nl +++ Py.nl +++ Py.nl.

(** *** Instances and classes *)

(** What an attribute of a generator instance may hold. *)
Inductive attribute : Type :=
| AttrModel (m : ModelMeta)
| AttrValue (v : KwargValue)
| AttrDict (d : Py.dict KwargValue).

(** An instance is its [__dict__]. *)
Definition instance : Type := Py.dict attribute.

(** A class is the table of the methods a subclass may override. *)
Record generator_class : Type := {
  (** [__init__] with a model and keyword arguments: [self] after the
      call, or the exception of the call *)
  cls_init : instance -> ModelMeta -> Py.dict KwargValue -> result instance;
  (** the property [decorators] *)
  cls_decorators : instance -> list string;
  (** [field_data(self, name, meta, optional)] *)
  cls_field_data :
    instance -> string -> MetaData -> bool -> R (ImportPathList * Py.dict string)
}.

(** Calling the class with a model and keyword arguments: [__init__] runs
    on a new instance, and an exception of [__init__] is that of the call. *)
Definition construct (cls : generator_class) (model : ModelMeta)
  (kwargs : Py.dict KwargValue) : result instance :=
  cls_init cls [] model kwargs.

(** [self.model] *)
Definition self_model (self : instance) : result ModelMeta :=
  match Py.dict_get self "model" with
  | Some (AttrModel m) => Ok m
  | _ => Raise (AttributeError "model")
  end.

(** *** [GenericModelCodeGenerator] *)

(** [BODY], as written in the class body. *)
Definition BODY_pattern : string := "
    {%- for decorator in decorators -%}
    @{{ decorator }}
    {% endfor -%}
    class {{ name }}:
    
    {%- for code in nested %}
    {{ code }}
    {% endfor -%}
    
    {%- if fields -%}
    {%- for field in fields %}
        {{ field }}
    {%- endfor %}
    {%- else %}
        pass
    {%- endif -%}
    ".

(** The line that stands for an empty body. *)
Definition PLACEHOLDER : string := "    pass".

(** [BODY.render(decorators=.., name=.., nested=.., fields=..)].

    A [-] inside a tag delimiter removes the whitespace on that side of
    the tag, line breaks included, so that what is left of the template
    between its tags is: ["@"] and a line break around each decorator;
    ["class "] and [":"] around the name; a line break before and after
    each nested text; a line break and four spaces before each field; a
    line break and [PLACEHOLDER] in the [else] branch. [nested] is the
    empty list when the key is not given. *)
Definition BODY_render (decorators : list string) (name : string)
  (nested : list string) (fields : list string) : string :=
  String.concat "" (map (fun decorator => "@" +++ decorator +++ Py.nl) decorators)
  +++ "class " +++ name +++ ":"
  +++ String.concat "" (map (fun code => Py.nl +++ code +++ Py.nl) nested)
  +++ match fields with
      | _ :: _ => String.concat "" (map (fun field => Py.nl +++ "    " +++ field) fields)
      | [] => Py.nl +++ PLACEHOLDER
      end.

(** A variable of a template that the data do not define renders as the
    empty text. *)
Definition lookup (data : Py.dict string) (key : string) : string :=
  match Py.dict_get data key with
  | Some text => text
  | None => EmptyString
  end.

(** [FIELD.render] on the entries of [data], for the pattern
    [{{name}}: {{type}}{% if body %} = {{ body }}{% endif %}]. *)
Definition FIELD_render (data : Py.dict string) : string :=
  lookup data "name" +++ ": " +++ lookup data "type"
  +++ (if Py.truthy (lookup data "body") then " = " +++ lookup data "body"
       else EmptyString).

(** The parameters of [__init__] that the call binds by position. *)
Definition positional : list string := ["self"; "model"].

(** Binding the keywords of a call [f(self, model, kwargs)] to the
    parameters [(self, model, kwargs)]: the keywords are taken in their
    order, and the first that names a parameter already bound by position
    is a [TypeError] (multiple values for that argument); the others are
    collected in [kwargs]. *)
Definition bind_keywords {V : Type} (kwargs : Py.dict V) : result (Py.dict V) :=
  match find (fun key => mem key positional) (Py.keys kwargs) with
  | Some key => Raise (TypeError key)
  | None => Ok kwargs
  end.

(** [__init__(self, model, kwargs)], [kwargs] the keyword arguments of the
    call. *)
Definition __init__ (self : instance) (model : ModelMeta)
  (kwargs : Py.dict KwargValue) : result instance :=
  kwargs <- bind_keywords kwargs ;;
  ret (Py.dict_set self "model" (AttrModel model)).

(** The property [decorators]. *)
Definition decorators (self : instance) : list string := [].

(** [field_data(self, name, meta, optional)] *)
Definition field_data (self : instance) (name : string) (meta : MetaData)
  (optional : bool) : R (ImportPathList * Py.dict string) :=
  '(imports, typing) <- metadata_to_typing meta ;;
  let data := Py.dict_set (Py.dict_set [] "name" (underscore name)) "type" typing in
  ret (imports, data).

(** The class itself. *)
Definition GenericModelCodeGenerator : generator_class := {|
  cls_init := __init__;
  cls_decorators := decorators;
  cls_field_data := field_data
|}.

(** The body of the inner loop of [fields]: [acc] holds the lists
    [imports] and [strings] that the loop extends; [self.field_data] is
    looked up in the class of [self]. *)
Definition fields_body (cls : generator_class) (self : instance)
  (is_optional : nat) (acc : ImportPathList * list string) (field : string)
  : R (ImportPathList * list string) :=
  let '(imports, strings) := acc in
  model <- lift (self_model self) ;;
  meta <- lift (Py.dict_getitem (type model) field) ;;
  '(field_imports, data) <-
    cls_field_data cls self field meta (Py.bool_of_nat is_optional) ;;
  ret (imports ++ field_imports, strings ++ [FIELD_render data]).

(** The property [fields], inherited by every subclass. *)
Definition fields (cls : generator_class) (self : instance)
  : R (ImportPathList * list string) :=
  model <- lift (self_model self) ;;
  '(required, optional) <- sort_fields model ;;
  for_each
    (fun acc group =>
       let '(is_optional, fields) := group in
       for_each (fields_body cls self is_optional) fields acc)
    (Py.enumerate [required; optional]) (([] : ImportPathList), ([] : list string)).

(** [generate(self, nested_classes)], inherited by every subclass. *)
Definition generate (cls : generator_class) (self : instance)
  (nested_classes : option (list string)) : R (ImportPathList * string) :=
  '(imports, fields) <- fields cls self ;;
  model <- lift (self_model self) ;;
  let nested :=
    match nested_classes with
    | Some (s :: rest) => map indent (s :: rest)
    | _ => []
    end in
  ret (imports, BODY_render (cls_decorators cls self) (name model) nested fields).

(** ** The tree walker *)

(** One element of a models structure: a dictionary with the keys
    ["model"] and ["nested"]. *)
#[warnings="-register-all"]
Inductive node : Type :=
| Node (model : ModelMeta) (nested : list node).

Definition node_model (data : node) : ModelMeta :=
  match data with Node model _ => model end.

Definition node_nested (data : node) : list node :=
  match data with Node _ nested => nested end.

(** The body of the loop of [_generate_code]: [acc] holds the lists
    [imports] and [classes] that the loop extends. *)
Fixpoint _generate_code_body (class_generator : generator_class)
  (class_generator_kwargs : Py.dict KwargValue) (lvl : nat)
  (acc : ImportPathList * list string) (data : node) {struct data}
  : R (ImportPathList * list string) :=
  match data with
  | Node model nested =>
      let '(imports, classes) := acc in
      '(nested_imports, nested_classes) <-
        for_each
          (_generate_code_body class_generator class_generator_kwargs (lvl + 1))
          nested ([], []) ;;
      let imports := imports ++ nested_imports in
      gen <- lift (construct class_generator model class_generator_kwargs) ;;
      '(cls_imports, cls_string) <-
        generate class_generator gen (Some nested_classes) ;;
      let imports := imports ++ cls_imports in
      ret (imports, classes ++ [cls_string])
  end.

(** [_generate_code(structure, class_generator, class_generator_kwargs, lvl)] *)
Definition _generate_code (structure : list node)
  (class_generator : generator_class)
  (class_generator_kwargs : Py.dict KwargValue) (lvl : nat)
  : R (ImportPathList * list string) :=
  for_each (_generate_code_body class_generator class_generator_kwargs lvl)
    structure ([], []).

(** ** The orchestrator *)

(** Modelled from the spec: [AbsoluteModelRef.inject] is not part of this
    module. It is a scoped activation of the process-wide reference mapping:
    entering the [with] block makes [mapping] the active one and keeps what
    was active before, leaving the block, normally or by an exception,
    puts that back. The state is the slot [AbsoluteModelRef._context]. *)
Definition inject_enter (mapping : ContextInjectionType)
  (slot : ContextInjectionType) : ContextInjectionType * ContextInjectionType :=
  (slot, mapping).

Definition inject_exit (saved : ContextInjectionType)
  (slot : ContextInjectionType) : ContextInjectionType :=
  saved.

(** [with AbsoluteModelRef.inject(mapping): body], for any body: the exit
    runs whether the body returned or raised, and the exception, if any,
    goes on. *)
Definition with_inject {A : Type} (mapping : ContextInjectionType)
  (body : stateful ContextInjectionType A) : stateful ContextInjectionType A :=
  fun slot =>
    let '(saved, slot) := inject_enter mapping slot in
    let '(outcome, slot) := body slot in
    (outcome, inject_exit saved slot).

(** Code that reads the slot without changing it. *)
Definition reading {A : Type} (c : R A) : stateful ContextInjectionType A :=
  fun slot => (c slot, slot).

(** [class_generator_kwargs or {}]: [None] and the empty dictionary are
    both false. *)
Definition or_empty (class_generator_kwargs : option (Py.dict KwargValue))
  : Py.dict KwargValue :=
  match class_generator_kwargs with
  | Some (entry :: rest) => entry :: rest
  | _ => []
  end.

(** [generate_code(structure, class_generator, class_generator_kwargs,
    objects_delimiter)] *)
Definition generate_code (structure : list node * ContextInjectionType)
  (class_generator : generator_class)
  (class_generator_kwargs : option (Py.dict KwargValue))
  (objects_delimiter : string) : stateful ContextInjectionType string :=
  let '(root, mapping) := structure in
  '(imports, classes) <-
    with_inject mapping
      (reading
         (_generate_code root class_generator (or_empty class_generator_kwargs) 0)) ;;
  imports_str <-
    match imports with
    | _ :: _ =>
        text <- reading (compile_imports imports) ;;
        ret (text +++ objects_delimiter)
    | [] => ret EmptyString
    end ;;
  ret (imports_str +++ Py.join objects_delimiter classes +++ Py.nl).

(** *** Vocabulary for the properties of the generator *)

(** What one iteration of the loop of [fields] computes for a field: the
    imports and the rendered line. *)
Definition field_entry (cls : generator_class) (self : instance)
  (model : ModelMeta) (optional : bool) (field : string)
  : R (ImportPathList * string) :=
  meta <- lift (Py.dict_getitem (type model) field) ;;
  '(field_imports, data) <- cls_field_data cls self field meta optional ;;
  ret (field_imports, FIELD_render data).

(** The two statements of the loop of [_generate_code] that build the
    generator of a node and run it:
    [gen = class_generator(model, kwargs)], then
    [gen.generate(nested_classes)]. An exception of either is the
    exception of the pair. *)
Definition generated (class_generator : generator_class) (model : ModelMeta)
  (class_generator_kwargs : Py.dict KwargValue)
  (nested_classes : option (list string)) : R (ImportPathList * string) :=
  gen <- lift (construct class_generator model class_generator_kwargs) ;;
  generate class_generator gen nested_classes.

(** What one iteration of the loop of [_generate_code] computes for a
    node: the imports of its subtree and its declaration. *)
Definition node_code (class_generator : generator_class)
  (class_generator_kwargs : Py.dict KwargValue) (lvl : nat) (data : node)
  : R (ImportPathList * string) :=
  '(nested_imports, nested_classes) <-
    _generate_code (node_nested data) class_generator class_generator_kwargs
      (lvl + 1) ;;
  '(cls_imports, cls_string) <-
    generated class_generator (node_model data) class_generator_kwargs
      (Some nested_classes) ;;
  ret (nested_imports ++ cls_imports, cls_string).

(** What the walker did at one node: it walked the children, then built
    the generator of the node and ran it on their declarations; the
    imports of the subtree are those of the children followed by those of
    the node. *)
Definition walked (class_generator : generator_class)
  (class_generator_kwargs : Py.dict KwargValue) (lvl : nat)
  (ctx : ContextInjectionType) (data : node)
  (subtree_imports : ImportPathList) (text : string) : Prop :=
  exists nested_imports nested_classes cls_imports,
    _generate_code (node_nested data) class_generator class_generator_kwargs
      (lvl + 1) ctx
    = Ok (nested_imports, nested_classes)
    /\ generated class_generator (node_model data) class_generator_kwargs
         (Some nested_classes) ctx
       = Ok (cls_imports, text)
    /\ subtree_imports = nested_imports ++ cls_imports.

(** The texts [generate] was given: none when [nested_classes] is [None]. *)
Definition nested_texts (nested_classes : option (list string)) : list string :=
  match nested_classes with
  | Some texts => texts
  | None => []
  end.

(** The lines of a text. *)
Definition lines (text : string) : list string := Py.split Py.nl_char text.

(** The rendered body as a sequence of blocks, one per line break of the
    template: the decorators, the header, every nested text followed by an
    empty line, then the field lines or the placeholder. *)
Definition body_blocks (decorators : list string) (name : string)
  (nested : list string) (fields : list string) : list string :=
  map (fun decorator => "@" +++ decorator) decorators
  ++ ["class " +++ name +++ ":"]
  ++ flat_map (fun code => [code; EmptyString]) nested
  ++ match fields with
     | _ :: _ => map (fun field => "    " +++ field) fields
     | [] => [PLACEHOLDER]
     end.


End Generator.

(** ** Stand-ins for the collaborators, for running the definitions

    A field type descriptor is the pair of its imports and its type text;
    a field is optional when its type text starts with [Optional]; the
    import compiler writes one [import] line per entry. *)

Module Demo.

#[export] Instance types : Types := {|
  MetaData := list string * string;
  ImportPath := string;
  ContextInjectionType := Py.dict string;
  KwargValue := string
|}.

Definition is_optional (entry : string * MetaData) : bool :=
  String.prefix "Optional" (snd (snd entry)).

#[export] Instance collaborators : Collaborators := {|
  sort_fields := fun model _ =>
    Ok (Py.keys (filter (fun entry => negb (is_optional entry)) (type model)),
        Py.keys (filter is_optional (type model)));
  metadata_to_typing := fun meta _ => Ok meta;
  compile_imports := fun imports _ =>
    Ok (Py.join Py.nl (map (fun path => "import " +++ path) imports));
  underscore := fun name => name
|}.

(** A model with the fields [a] (required), [b] (optional) and [c]
    (required), declared in that order. *)
Definition model_abc : ModelMeta := {|
  name := "Abc";
  type := [("a", ([], "int"));
           ("b", (["typing"], "Optional[str]"));
           ("c", (["datetime"], "datetime.date"))]
|}.

(** The instance that a call of the base class with a model and no
    keyword configuration builds. *)
Definition built (model : ModelMeta) : instance :=
  [("model", AttrModel model)].

(** A model without fields. *)
Definition model_empty : ModelMeta := {| name := "Empty"; type := [] |}.

(** A model with one field that needs an import. *)
Definition model_one (name import field : string) : ModelMeta := {|
  name := name;
  type := [(field, ([import], "Any"))]
|}.


(** Two roots without fields, hence without imports. *)
Definition two_roots : list node :=
  [Node {| name := "A"; type := [] |} [];
   Node {| name := "B"; type := [] |} []].

End Demo.

(** ** Stand-ins that fail

    As [Demo], except that the type text [?] stands for a reference that
    cannot be resolved, for which [metadata_to_typing] raises, and that the
    field-ordering helper lists a field [ghost] that no model has for a
    model named [Haunted]. *)

Module Faulty.

#[local] Existing Instance Demo.types.

Definition collaborators : Collaborators := {|
  sort_fields := fun model _ =>
    Ok (Py.keys (filter (fun entry => negb (Demo.is_optional entry)) (type model)),
        Py.keys (filter Demo.is_optional (type model))
        ++ (if String.eqb (name model) "Haunted" then ["ghost"] else []));
  metadata_to_typing := fun meta _ =>
    if String.eqb (snd meta) "?"
    then Raise (Propagated "unresolved reference")
    else Ok meta;
  compile_imports := fun imports _ =>
    Ok (Py.join Py.nl (map (fun path => "import " +++ path) imports));
  underscore := fun name => name
|}.

(** The base class, with these stand-ins behind its methods. *)
Definition generator : generator_class :=
  @GenericModelCodeGenerator Demo.types collaborators.

(** A model whose helper result names a field it does not have. *)
Definition model_haunted : ModelMeta := {|
  name := "Haunted";
  type := [("a", ([], "int"))]
|}.

(** A model whose second field has a type that cannot be resolved. *)
Definition model_broken : ModelMeta := {|
  name := "Broken";
  type := [("a", ([], "int")); ("b", ([], "?")); ("c", ([], "str"))]
|}.

End Faulty.

(* ================================================================== *)
(** * Part II. Properties *)
(* ================================================================== *)

(** Unfolds the sequencing of the three monads, and nothing else. *)
Ltac msimpl :=
  cbn [bind ret result_monad stateful_monad reader_monad];
  unfold stateful_bind, reader_bind, result_bind, lift;
  cbn beta iota.

(** ** Strings and lines *)

Lemma append_empty_r (s : string) : s +++ EmptyString = s.
Proof. induction s as [|c s IH]; simpl; [reflexivity | now rewrite IH]. Qed.

Lemma append_assoc (a b c : string) : (a +++ b) +++ c = a +++ b +++ c.
Proof. induction a as [|x a IH]; simpl; [reflexivity | now rewrite IH]. Qed.

Lemma split_not_nil (sep : ascii) (s : string) : Py.split sep s <> [].
Proof.
  destruct s as [|a r]; simpl; [discriminate|].
  destruct (Ascii.eqb a sep); [discriminate|].
  destruct (Py.split sep r); discriminate.
Qed.

(** A text with a separator in it splits into at least two parts. *)
Lemma split_contains (sep : ascii) (s : string) :
  Py.contains sep s = true ->
  exists first second rest, Py.split sep s = first :: second :: rest.
Proof.
  induction s as [|a r IH]; simpl; [discriminate|].
  destruct (Ascii.eqb a sep) eqn:E; simpl.
  - intros _. destruct (Py.split sep r) as [|w ws] eqn:S.
    + now apply split_not_nil in S.
    + now exists EmptyString, w, ws.
  - intros H. destruct (IH H) as (f & s2 & rest & ->).
    now exists (String a f), s2, rest.
Qed.

Lemma lstrip_cases (s : string) :
  (TemplateSpec.whitespace_only s = true /\ Py.lstrip s = EmptyString)
  \/ (TemplateSpec.whitespace_only s = false
      /\ exists c r, Py.lstrip s = String c r /\ Py.is_space c = false).
Proof.
  induction s as [|c r IH]; simpl.
  - now left.
  - destruct (Py.is_space c) eqn:E; simpl.
    + exact IH.
    + right. split; [reflexivity|]. now exists c, r.
Qed.

(** [not line.strip()] holds exactly of a whitespace-only line. *)
Lemma strip_blank (s : string) :
  negb (Py.truthy (Py.strip s)) = TemplateSpec.whitespace_only s.
Proof.
  unfold Py.strip.
  destruct (lstrip_cases s) as [[-> ->] | [-> (c & r & -> & E)]]; simpl.
  - reflexivity.
  - rewrite E, andb_false_r. reflexivity.
Qed.

(** The slices of [template] dedent a line as the specification says. *)
Lemma slice_dedent (ind line : string) :
  (if String.eqb (Py.slice_to line (String.length ind)) ind
   then Py.slice_from line (String.length ind)
   else line)
  = TemplateSpec.dedent_line ind line.
Proof.
  unfold TemplateSpec.dedent_line.
  assert (G : forall ind line,
             (String.eqb (Py.slice_to line (String.length ind)) ind = true
              /\ TemplateSpec.strip_prefix ind line
                 = Some (Py.slice_from line (String.length ind)))
             \/ (String.eqb (Py.slice_to line (String.length ind)) ind = false
                 /\ TemplateSpec.strip_prefix ind line = None)).
  { clear. induction ind as [|a u IH]; intros [|b l]; simpl; auto.
    - rewrite Ascii.eqb_sym.
      destruct (Ascii.eqb a b) eqn:E; [|now right].
      destruct (IH l) as [[H1 H2] | [H1 H2]]; rewrite H1, H2; auto. }
  destruct (G ind line) as [[-> ->] | [-> ->]]; reflexivity.
Qed.

(** ** Indexing from either end *)

Lemma getitem_first (A : Type) (x : A) (l : list A) : Py.getitem (x :: l) 0 = Ok x.
Proof.
  unfold Py.getitem, Py.norm_index.
  replace (0 <? 0)%Z with false by reflexivity.
  replace ((0 <=? 0)%Z && (0 <? Z.of_nat (List.length (x :: l)))%Z) with true.
  - reflexivity.
  - symmetry. apply andb_true_iff. split; [reflexivity|].
    apply Z.ltb_lt. simpl List.length. lia.
Qed.

Lemma delitem_first (A : Type) (x : A) (l : list A) : Py.delitem (x :: l) 0 = Ok l.
Proof.
  unfold Py.delitem, Py.norm_index.
  replace (0 <? 0)%Z with false by reflexivity.
  replace ((0 <=? 0)%Z && (0 <? Z.of_nat (List.length (x :: l)))%Z) with true.
  - reflexivity.
  - symmetry. apply andb_true_iff. split; [reflexivity|].
    apply Z.ltb_lt. simpl List.length. lia.
Qed.

Lemma norm_index_last (A : Type) (x : A) (l : list A) :
  Py.norm_index (x :: l) (-1) = Ok (List.length l).
Proof.
  unfold Py.norm_index.
  replace (-1 <? 0)%Z with true by reflexivity.
  replace (-1 + Z.of_nat (List.length (x :: l)))%Z with (Z.of_nat (List.length l))
    by (simpl List.length; lia).
  replace ((0 <=? Z.of_nat (List.length l))%Z
           && (Z.of_nat (List.length l) <? Z.of_nat (List.length (x :: l)))%Z)
    with true.
  - now rewrite Nat2Z.id.
  - symmetry. apply andb_true_iff. split.
    + apply Z.leb_le. lia.
    + apply Z.ltb_lt. simpl List.length. lia.
Qed.

Lemma nth_error_length_last (A : Type) (d x : A) (l : list A) :
  nth_error (x :: l) (List.length l) = Some (List.last (x :: l) d).
Proof.
  revert x. induction l as [|y l IH]; intros x; [reflexivity|].
  change (nth_error (y :: l) (List.length l) = Some (List.last (y :: l) d)).
  apply IH.
Qed.

Lemma remove_at_length_last (A : Type) (x : A) (l : list A) :
  Py.remove_at (x :: l) (List.length l) = List.removelast (x :: l).
Proof.
  revert x. induction l as [|y l IH]; intros x; [reflexivity|].
  change (x :: Py.remove_at (y :: l) (List.length l) = x :: List.removelast (y :: l)).
  now rewrite IH.
Qed.

Lemma getitem_last (A : Type) (d x : A) (l : list A) :
  Py.getitem (x :: l) (-1) = Ok (List.last (x :: l) d).
Proof.
  unfold Py.getitem. rewrite norm_index_last. msimpl.
  now rewrite (nth_error_length_last d).
Qed.

Lemma delitem_last (A : Type) (x : A) (l : list A) :
  Py.delitem (x :: l) (-1) = Ok (List.removelast (x :: l)).
Proof.
  unfold Py.delitem. rewrite norm_index_last. msimpl.
  now rewrite remove_at_length_last.
Qed.

(** ** C7: the text that [template] builds *)

Lemma dedent_lines (ind : string) (lines : list string) :
  map (fun line =>
         if String.eqb (Py.slice_to line (String.length ind)) ind
         then Py.slice_from line (String.length ind)
         else line) lines
  = map (TemplateSpec.dedent_line ind) lines.
Proof. apply map_ext. intros line. apply slice_dedent. Qed.

(** C7. For every pattern and indent unit, [template] raises nothing and
    hands the templating engine the text the specification describes: the
    pattern itself when it has no newline; otherwise the pattern without
    its leading line when that line is whitespace-only, without its
    trailing line when that line is whitespace-only, and with one leading
    indent unit removed from every line that begins with it. *)
Theorem template_text_as_specified (pattern ind : string) :
  template pattern ind = Ok (TemplateSpec.template_text pattern ind).
Proof.
  unfold template, TemplateSpec.template_text.
  destruct (Py.contains Py.nl_char pattern) eqn:N; [|reflexivity].
  destruct (split_contains _ _ N) as (first & second & rest & ->).
  cbn [for_each List.hd List.tl].
  change (List.last (first :: second :: rest) EmptyString)
    with (List.last (second :: rest) EmptyString).
  rewrite getitem_first. msimpl. rewrite strip_blank.
  destruct (TemplateSpec.whitespace_only first).
  - rewrite delitem_first. msimpl.
    rewrite (getitem_last EmptyString). msimpl. rewrite strip_blank.
    destruct (TemplateSpec.whitespace_only (List.last (second :: rest) EmptyString)).
    + rewrite delitem_last. msimpl. now rewrite dedent_lines.
    + msimpl. now rewrite dedent_lines.
  - msimpl.
    rewrite (getitem_last EmptyString). msimpl. rewrite strip_blank.
    change (List.last (first :: second :: rest) EmptyString)
      with (List.last (second :: rest) EmptyString).
    destruct (TemplateSpec.whitespace_only (List.last (second :: rest) EmptyString)).
    + rewrite delitem_last. msimpl. now rewrite dedent_lines.
    + msimpl. now rewrite dedent_lines.
Qed.

(** ** Dictionaries *)

Section DictFacts.
Variable V : Type.
Implicit Types (d e : Py.dict V) (k x : string) (v : V).

Lemma dict_get_app d e k :
  Py.dict_get (d ++ e) k
  = match Py.dict_get d k with
    | Some v => Some v
    | None => Py.dict_get e k
    end.
Proof.
  induction d as [|[k' v'] d IH]; simpl; [reflexivity|].
  destruct (String.eqb k k'); [reflexivity | exact IH].
Qed.

(** Looking a key up after the entries were filtered by their keys. *)
Lemma dict_get_filter (p : string -> bool) d k :
  Py.dict_get (filter (fun entry => p (fst entry)) d) k
  = if p k then Py.dict_get d k else None.
Proof.
  induction d as [|[k' v'] d IH]; simpl.
  - now destruct (p k).
  - destruct (String.eqb k k') eqn:E.
    + apply String.eqb_eq in E. subst k'.
      destruct (p k) eqn:P; simpl.
      * now rewrite String.eqb_refl.
      * rewrite IH. reflexivity.
    + destruct (p k'); simpl; [rewrite E|]; exact IH.
Qed.

Lemma dict_get_remove d x k :
  Py.dict_get (Py.dict_remove d x) k
  = if String.eqb x k then None else Py.dict_get d k.
Proof.
  unfold Py.dict_remove.
  rewrite (dict_get_filter (fun k' => negb (String.eqb x k'))).
  now destruct (String.eqb x k).
Qed.

Lemma dict_get_without d (names : list string) k :
  Py.dict_get (without d names) k
  = if mem k names then None else Py.dict_get d k.
Proof.
  unfold without.
  rewrite (dict_get_filter (fun k' => negb (mem k' names))).
  now destruct (mem k names).
Qed.

Lemma dict_get_none_iff d k : Py.dict_get d k = None <-> ~ In k (Py.keys d).
Proof.
  induction d as [|[k' v'] d IH]; simpl.
  - tauto.
  - destruct (String.eqb k k') eqn:E.
    + apply String.eqb_eq in E. subst. split; [discriminate | tauto].
    + apply String.eqb_neq in E. rewrite IH. split.
      * intros H [H1 | H1]; [now apply E | now apply H].
      * tauto.
Qed.

Lemma dict_in_iff d k : Py.dict_in k d = true <-> In k (Py.keys d).
Proof.
  unfold Py.dict_in. pose proof (dict_get_none_iff d k) as H.
  destruct (Py.dict_get d k).
  - split; [|reflexivity]. intros _.
    destruct (in_dec string_dec k (Py.keys d)) as [I | I]; [exact I|].
    apply H in I. discriminate.
  - split; [discriminate|]. intros I. exfalso. now apply (proj1 H).
Qed.

(** Writing a new key appends the entry. *)
Lemma dict_set_fresh d k v :
  Py.dict_get d k = None -> Py.dict_set d k v = d ++ [(k, v)].
Proof.
  induction d as [|[k' v'] d IH]; simpl; [reflexivity|].
  destruct (String.eqb k k'); [discriminate|].
  intros H. now rewrite IH.
Qed.

(** Merging a dictionary whose keys are all new appends its entries. *)
Lemma dict_merge_fresh d e :
  NoDup (Py.keys (d ++ e)) -> Py.dict_merge d e = d ++ e.
Proof.
  unfold Py.dict_merge. revert d.
  induction e as [|[k v] e IH]; intros d H; simpl.
  - now rewrite app_nil_r.
  - rewrite dict_set_fresh.
    + rewrite IH; rewrite <- app_assoc; [reflexivity | exact H].
    + apply dict_get_none_iff. unfold Py.keys in *. rewrite map_app in H.
      simpl in H. apply NoDup_remove_2 in H.
      intros I. apply H. apply in_or_app. now left.
Qed.

Lemma remove_absent d x : Py.dict_get d x = None -> Py.dict_remove d x = d.
Proof.
  intros H. apply dict_get_none_iff in H. unfold Py.dict_remove.
  induction d as [|[k' v'] d IH]; simpl in *; [reflexivity|].
  destruct (String.eqb x k') eqn:E.
  - apply String.eqb_eq in E. subst. tauto.
  - simpl. f_equal. apply IH. tauto.
Qed.

Lemma remove_is_without d x : Py.dict_remove d x = without d [x].
Proof.
  unfold Py.dict_remove, without. apply filter_ext. intros [k v]. simpl.
  rewrite String.eqb_sym. now rewrite orb_false_r.
Qed.

Lemma without_nil d : without d [] = d.
Proof.
  unfold without. simpl. induction d as [|a d IH]; simpl; [reflexivity|].
  now rewrite IH.
Qed.

Lemma without_app d (a b : list string) :
  without d (a ++ b) = without (without d a) b.
Proof.
  unfold without. induction d as [|[k v] d IH]; simpl; [reflexivity|].
  unfold mem at 1. rewrite existsb_app. fold (mem k a). fold (mem k b).
  destruct (mem k a); simpl.
  - exact IH.
  - destruct (mem k b); simpl; [exact IH | now rewrite IH].
Qed.

End DictFacts.

(** ** The loops of [sort_kwargs] *)

Section SortLoops.
Variable V : Type.
Implicit Types (kw d : Py.dict V) (st : sort_state V) (k x : string).

Lemma sort_item_place st x : sort_item tt x st = (Ok tt, place st x).
Proof.
  destruct st as [kw d1 d2 c].
  unfold sort_item, place, get, kwargs_pop, current_setitem, modify,
    Py.dict_in, Py.dict_pop, Py.dict_getitem.
  simpl. unfold stateful_bind, result_bind. simpl.
  destruct (Py.dict_get kw x) as [v|] eqn:G; simpl; rewrite ?G; simpl;
    [destruct c|]; reflexivity.
Qed.

Lemma sort_items_place (items : list string) st :
  for_each (@sort_item V) items tt st = (Ok tt, fold_left (@place V) items st).
Proof.
  revert st. induction items as [|x items IH]; intros st; [reflexivity|].
  cbn [for_each fold_left]. msimpl. rewrite sort_item_place. apply IH.
Qed.

(** An ordering without an unknown string runs to its end. *)
Lemma sort_groups_run (ordering : list group) st :
  wildcards_only ordering = true ->
  for_each (@sort_group V) ordering tt st
  = (Ok tt, fold_left (@apply_group V) ordering st).
Proof.
  revert st. induction ordering as [|g ordering IH]; intros st W; [reflexivity|].
  simpl in W. apply andb_true_iff in W. destruct W as [Wg W].
  cbn [for_each fold_left]. msimpl.
  destruct g as [s | items]; cbn [sort_group apply_group].
  - rewrite Wg. cbn [negb]. unfold current_rebind, modify. now apply IH.
  - rewrite sort_items_place. now apply IH.
Qed.

(** The first unknown string ends the loop; the groups before it have run. *)
Lemma sort_groups_raise (before rest : list group) (s : string) st :
  wildcards_only before = true ->
  String.eqb s "*" = false ->
  for_each (@sort_group V) (before ++ GroupStr s :: rest) tt st
  = (Raise (ValueError ("Unknown kwarg group: " +++ s)),
     fold_left (@apply_group V) before st).
Proof.
  revert st. induction before as [|g before IH]; intros st W S.
  - cbn [app for_each fold_left sort_group]. msimpl. now rewrite S.
  - simpl in W. apply andb_true_iff in W. destruct W as [Wg W].
    cbn [app for_each fold_left]. msimpl.
    destruct g as [s' | items]; cbn [sort_group apply_group].
    + rewrite Wg. cbn [negb]. unfold current_rebind, modify. now apply IH.
    + rewrite sort_items_place. now apply IH.
Qed.

(** *** What the inner loop moves *)

Lemma dict_get_picked kw (items : list string) k :
  Py.dict_get (picked kw items) k
  = if mem k items then Py.dict_get kw k else None.
Proof.
  revert kw. induction items as [|x items IH]; intros kw; [reflexivity|].
  cbn [picked mem existsb]. fold (mem k items).
  destruct (Py.dict_get kw x) as [v|] eqn:G.
  - cbn [Py.dict_get]. destruct (String.eqb k x) eqn:E.
    + apply String.eqb_eq in E. subst. now rewrite G.
    + cbn [orb]. rewrite IH, dict_get_remove, String.eqb_sym, E. reflexivity.
  - rewrite IH. destruct (String.eqb k x) eqn:E; [|reflexivity].
    apply String.eqb_eq in E. subst. rewrite G. now destruct (mem x items).
Qed.

Lemma picked_app kw (a b : list string) :
  picked kw (a ++ b) = picked kw a ++ picked (without kw a) b.
Proof.
  revert kw. induction a as [|x a IH]; intros kw.
  - now rewrite without_nil.
  - cbn [app picked]. change (x :: a) with ([x] ++ a).
    rewrite without_app, <- remove_is_without.
    destruct (Py.dict_get kw x) eqn:G.
    + now rewrite IH.
    + rewrite (remove_absent _ _ G). apply IH.
Qed.

Lemma dict_in_without kw (items : list string) k :
  Py.dict_in k (without kw items) = true ->
  mem k items = false /\ Py.dict_in k kw = true.
Proof.
  unfold Py.dict_in. rewrite dict_get_without.
  destruct (mem k items); [discriminate|]. now split.
Qed.

Lemma untouched_after_first kw d1 d2 (items : list string) :
  untouched kw d1 d2 ->
  untouched (without kw items) (d1 ++ picked kw items) d2.
Proof.
  intros U k I. apply dict_in_without in I. destruct I as [M I].
  destruct (U k I) as [H1 H2]. split; [|exact H2].
  now rewrite dict_get_app, H1, dict_get_picked, M.
Qed.

Lemma untouched_after_second kw d1 d2 (items : list string) :
  untouched kw d1 d2 ->
  untouched (without kw items) d1 (d2 ++ picked kw items).
Proof.
  intros U k I. apply dict_in_without in I. destruct I as [M I].
  destruct (U k I) as [H1 H2]. split; [exact H1|].
  now rewrite dict_get_app, H2, dict_get_picked, M.
Qed.

Lemma untouched_in kw d1 d2 x v :
  untouched kw d1 d2 -> Py.dict_get kw x = Some v ->
  Py.dict_get d1 x = None /\ Py.dict_get d2 x = None.
Proof. intros U G. apply U. unfold Py.dict_in. now rewrite G. Qed.

Lemma place_present kw d1 d2 (c : bucket) x (v : V) :
  Py.dict_get kw x = Some v ->
  place {| st_kwargs := kw; sorted_dict_1 := d1; sorted_dict_2 := d2; current := c |} x
  = match c with
    | First =>
        {| st_kwargs := Py.dict_remove kw x;
           sorted_dict_1 := Py.dict_set d1 x v;
           sorted_dict_2 := d2;
           current := First |}
    | Second =>
        {| st_kwargs := Py.dict_remove kw x;
           sorted_dict_1 := d1;
           sorted_dict_2 := Py.dict_set d2 x v;
           current := Second |}
    end.
Proof. intros G. unfold place. simpl. rewrite G. now destruct c. Qed.

Lemma place_absent (st : sort_state V) x :
  Py.dict_get (st_kwargs st) x = None -> place st x = st.
Proof. intros G. unfold place. now rewrite G. Qed.

Lemma place_all_first kw d1 d2 (items : list string) :
  untouched kw d1 d2 ->
  fold_left (@place V) items
    {| st_kwargs := kw; sorted_dict_1 := d1; sorted_dict_2 := d2; current := First |}
  = {| st_kwargs := without kw items;
       sorted_dict_1 := d1 ++ picked kw items;
       sorted_dict_2 := d2;
       current := First |}.
Proof.
  revert kw d1. induction items as [|x items IH]; intros kw d1 U.
  - cbn [fold_left picked]. now rewrite without_nil, app_nil_r.
  - cbn [fold_left picked].
    change (x :: items) with ([x] ++ items).
    rewrite without_app, <- remove_is_without.
    destruct (Py.dict_get kw x) as [v|] eqn:G.
    + destruct (untouched_in _ U G) as [F _].
      rewrite (place_present kw d1 d2 First x G), (dict_set_fresh _ _ _ F), IH.
      * now rewrite <- app_assoc.
      * rewrite remove_is_without.
        pose proof (untouched_after_first [x] U) as U'.
        cbn [picked] in U'. now rewrite G in U'.
    + rewrite (remove_absent _ _ G), place_absent by exact G. now apply IH.
Qed.

Lemma place_all_second kw d1 d2 (items : list string) :
  untouched kw d1 d2 ->
  fold_left (@place V) items
    {| st_kwargs := kw; sorted_dict_1 := d1; sorted_dict_2 := d2; current := Second |}
  = {| st_kwargs := without kw items;
       sorted_dict_1 := d1;
       sorted_dict_2 := d2 ++ picked kw items;
       current := Second |}.
Proof.
  revert kw d2. induction items as [|x items IH]; intros kw d2 U.
  - cbn [fold_left picked]. now rewrite without_nil, app_nil_r.
  - cbn [fold_left picked].
    change (x :: items) with ([x] ++ items).
    rewrite without_app, <- remove_is_without.
    destruct (Py.dict_get kw x) as [v|] eqn:G.
    + destruct (untouched_in _ U G) as [_ F].
      rewrite (place_present kw d1 d2 Second x G), (dict_set_fresh _ _ _ F), IH.
      * now rewrite <- app_assoc.
      * rewrite remove_is_without.
        pose proof (untouched_after_second [x] U) as U'.
        cbn [picked] in U'. now rewrite G in U'.
    + rewrite (remove_absent _ _ G), place_absent by exact G. now apply IH.
Qed.

End SortLoops.

(** ** Key sequences *)

Lemma mem_In (x : string) (names : list string) : mem x names = true <-> In x names.
Proof.
  unfold mem. rewrite existsb_exists. split.
  - intros (y & I & E). apply String.eqb_eq in E. now subst.
  - intros I. exists x. split; [exact I | apply String.eqb_refl].
Qed.

Lemma mem_false (x : string) (names : list string) :
  mem x names = false <-> ~ In x names.
Proof.
  rewrite <- mem_In. destruct (mem x names); split; congruence.
Qed.

Lemma filter_filter (A : Type) (p q : A -> bool) (l : list A) :
  filter p (filter q l) = filter (fun a => q a && p a) l.
Proof.
  induction l as [|a l IH]; simpl; [reflexivity|].
  destruct (q a); simpl; [destruct (p a)|]; now rewrite IH.
Qed.

Lemma filter_id (A : Type) (p : A -> bool) (l : list A) :
  (forall a, In a l -> p a = true) -> filter p l = l.
Proof.
  intros H. induction l as [|a l IH]; simpl; [reflexivity|].
  rewrite (H a) by now left. f_equal. apply IH. intros b I. apply H. now right.
Qed.

Lemma first_occurrences_filter (p : string -> bool) (l : list string) :
  first_occurrences (filter p l) = filter p (first_occurrences l).
Proof.
  induction l as [|x l IH]; simpl; [reflexivity|].
  destruct (p x) eqn:P; simpl; rewrite IH, !filter_filter.
  - f_equal. apply filter_ext. intros y. apply andb_comm.
  - apply filter_ext_in. intros y _.
    destruct (String.eqb x y) eqn:E; [|reflexivity].
    apply String.eqb_eq in E. subst. now rewrite P.
Qed.

Lemma first_occurrences_app (a b : list string) :
  first_occurrences (a ++ b)
  = first_occurrences a ++ filter (fun y => negb (mem y a)) (first_occurrences b).
Proof.
  induction a as [|x a IH]; simpl.
  - symmetry. apply filter_id. reflexivity.
  - f_equal. rewrite IH, filter_app, filter_filter. f_equal.
    apply filter_ext. intros y. rewrite (String.eqb_sym y x).
    destruct (String.eqb x y), (mem y a); reflexivity.
Qed.

Lemma first_occurrences_In (y : string) (l : list string) :
  In y (first_occurrences l) <-> In y l.
Proof.
  induction l as [|x l IH]; simpl; [tauto|].
  rewrite filter_In, IH. destruct (String.eqb x y) eqn:E.
  - apply String.eqb_eq in E. subst. tauto.
  - apply String.eqb_neq in E. simpl. tauto.
Qed.

Lemma first_occurrences_NoDup (l : list string) : NoDup (first_occurrences l).
Proof.
  induction l as [|x l IH]; simpl; constructor.
  - rewrite filter_In. intros [_ H]. now rewrite String.eqb_refl in H.
  - now apply NoDup_filter.
Qed.

Lemma first_occurrences_id (l : list string) : NoDup l -> first_occurrences l = l.
Proof.
  induction 1 as [|x l N _ IH]; simpl; [reflexivity|].
  rewrite IH. f_equal. apply filter_id. intros y I.
  destruct (String.eqb x y) eqn:E; [|reflexivity].
  apply String.eqb_eq in E. now subst.
Qed.

Lemma mentioned_split (ordering : list group) :
  mentioned ordering
  = mentioned (pre_wildcard ordering) ++ mentioned (post_wildcard ordering).
Proof.
  unfold mentioned. induction ordering as [|[s|items] o IH]; simpl.
  - reflexivity.
  - reflexivity.
  - now rewrite IH, app_assoc.
Qed.

Section KeyOrder.
Variable V : Type.
Implicit Types (kw d : Py.dict V) (k x : string).

Lemma keys_filter (p : string -> bool) d :
  Py.keys (filter (fun entry => p (fst entry)) d) = filter p (Py.keys d).
Proof.
  unfold Py.keys. induction d as [|[k v] d IH]; simpl; [reflexivity|].
  destruct (p k); simpl; now rewrite IH.
Qed.

Lemma keys_without kw (names : list string) :
  Py.keys (without kw names) = filter (fun k => negb (mem k names)) (Py.keys kw).
Proof. apply (keys_filter (fun k => negb (mem k names))). Qed.

Lemma present_without kw (names items : list string) :
  present (without kw names) items
  = filter (fun k => negb (mem k names)) (present kw items).
Proof.
  unfold present. rewrite filter_filter. apply filter_ext. intros k.
  unfold Py.dict_in. rewrite dict_get_without.
  destruct (mem k names), (Py.dict_get kw k); reflexivity.
Qed.

Lemma present_remove kw x (items : list string) :
  present (Py.dict_remove kw x) items
  = filter (fun y => negb (String.eqb x y)) (present kw items).
Proof.
  rewrite remove_is_without, present_without. apply filter_ext. intros y.
  cbn [mem existsb]. now rewrite orb_false_r, String.eqb_sym.
Qed.

(** The inner loop takes the names that are keys, each at its first mention. *)
Lemma picked_keys kw (items : list string) :
  Py.keys (picked kw items) = first_occurrences (present kw items).
Proof.
  revert kw. induction items as [|x items IH]; intros kw; [reflexivity|].
  cbn [picked present filter]. unfold Py.dict_in.
  destruct (Py.dict_get kw x) as [v|] eqn:G.
  - cbn [Py.keys map fst first_occurrences]. f_equal.
    fold (Py.keys (picked (Py.dict_remove kw x) items)).
    rewrite IH, present_remove. apply first_occurrences_filter.
  - apply IH.
Qed.

Lemma present_In kw (items : list string) k :
  In k (present kw items) <-> In k items /\ Py.dict_in k kw = true.
Proof. unfold present. apply filter_In. Qed.

End KeyOrder.

(** ** The objects of [sort_kwargs] after the outer loop *)

Section SortOutcome.
Variable V : Type.
Implicit Types (kw d kwargs : Py.dict V) (k x : string).

Lemma run_groups_second kw d1 d2 (ordering : list group) :
  untouched kw d1 d2 ->
  fold_left (@apply_group V) ordering
    {| st_kwargs := kw; sorted_dict_1 := d1; sorted_dict_2 := d2; current := Second |}
  = {| st_kwargs := without kw (mentioned ordering);
       sorted_dict_1 := d1;
       sorted_dict_2 := d2 ++ picked kw (mentioned ordering);
       current := Second |}.
Proof.
  revert kw d2. induction ordering as [|[s|items] o IH]; intros kw d2 U.
  - cbn. now rewrite without_nil, app_nil_r.
  - cbn [fold_left apply_group st_kwargs sorted_dict_1 sorted_dict_2].
    now apply IH.
  - cbn [fold_left apply_group]. rewrite place_all_second by exact U.
    rewrite IH by now apply untouched_after_second.
    change (mentioned (GroupNames items :: o)) with (items ++ mentioned o).
    now rewrite without_app, picked_app, app_assoc.
Qed.

Lemma run_groups_first kw d1 d2 (ordering : list group) :
  untouched kw d1 d2 ->
  let st := fold_left (@apply_group V) ordering
              {| st_kwargs := kw; sorted_dict_1 := d1;
                 sorted_dict_2 := d2; current := First |} in
  st_kwargs st = without kw (mentioned ordering)
  /\ sorted_dict_1 st = d1 ++ picked kw (mentioned (pre_wildcard ordering))
  /\ sorted_dict_2 st
     = d2 ++ picked (without kw (mentioned (pre_wildcard ordering)))
               (mentioned (post_wildcard ordering)).
Proof.
  revert kw d1. induction ordering as [|[s|items] o IH]; intros kw d1 U.
  - cbn. now rewrite without_nil, !app_nil_r.
  - cbn [fold_left apply_group st_kwargs sorted_dict_1 sorted_dict_2
         pre_wildcard post_wildcard].
    rewrite run_groups_second by exact U. cbn.
    now rewrite without_nil, app_nil_r.
  - cbn [fold_left apply_group pre_wildcard post_wildcard].
    rewrite place_all_first by exact U.
    destruct (IH (without kw items) (d1 ++ picked kw items)) as (H1 & H2 & H3);
      [now apply untouched_after_first|].
    cbn zeta. rewrite H1, H2, H3.
    change (mentioned (GroupNames items :: o)) with (items ++ mentioned o).
    change (mentioned (GroupNames items :: pre_wildcard o))
      with (items ++ mentioned (pre_wildcard o)).
    now rewrite !without_app, picked_app, app_assoc.
Qed.

Lemma untouched_initially kwargs : untouched kwargs [] [].
Proof. intros k _. now split. Qed.

(** The first element of an ordering that is an unknown string. *)
Lemma first_unknown_group (ordering : list group) :
  wildcards_only ordering = false ->
  exists before s rest,
    ordering = before ++ GroupStr s :: rest
    /\ wildcards_only before = true
    /\ String.eqb s "*" = false.
Proof.
  induction ordering as [|g o IH]; [discriminate|].
  cbn [wildcards_only forallb]. fold (wildcards_only o).
  destruct g as [s|items].
  - destruct (String.eqb s "*") eqn:E.
    + cbn [andb]. intros W. destruct (IH W) as (b & s' & r & -> & Wb & Es).
      exists (GroupStr s :: b), s', r. repeat split; [|exact Es].
      cbn. now rewrite E.
    + intros _. now exists [], s, o.
  - cbn [andb]. intros W. destruct (IH W) as (b & s' & r & -> & Wb & Es).
    now exists (GroupNames items :: b), s', r.
Qed.

(** The dictionary display of the last statement only appends. *)
Lemma merged_buckets d1 kw d2 :
  NoDup (Py.keys (d1 ++ kw ++ d2)) ->
  Py.dict_merge (Py.dict_merge (Py.dict_merge [] d1) kw) d2 = d1 ++ kw ++ d2.
Proof.
  intros N.
  assert (N1 : NoDup (Py.keys ([] ++ d1))).
  { apply NoDup_app_remove_r with (l' := Py.keys (kw ++ d2)).
    unfold Py.keys in *. now rewrite <- map_app. }
  assert (N2 : NoDup (Py.keys (d1 ++ kw))).
  { apply NoDup_app_remove_r with (l' := Py.keys d2).
    unfold Py.keys in *. now rewrite <- map_app, <- app_assoc. }
  rewrite (dict_merge_fresh _ _ N1). cbn [app].
  rewrite (dict_merge_fresh _ _ N2).
  rewrite dict_merge_fresh; rewrite <- app_assoc; [reflexivity | exact N].
Qed.

(** The keys of the three parts, as sequences. *)
Lemma outcome_keys kwargs (ordering : list group) :
  Py.dict_wf kwargs ->
  Py.keys (picked kwargs (mentioned (pre_wildcard ordering))
           ++ without kwargs (mentioned ordering)
           ++ picked (without kwargs (mentioned (pre_wildcard ordering)))
                (mentioned (post_wildcard ordering)))
  = first_occurrences
      (present kwargs (mentioned (pre_wildcard ordering))
       ++ Py.keys (without kwargs (mentioned ordering))
       ++ present kwargs (mentioned (post_wildcard ordering))).
Proof.
  intros WF.
  set (pre := mentioned (pre_wildcard ordering)).
  set (post := mentioned (post_wildcard ordering)).
  assert (NB : NoDup (Py.keys (without kwargs (mentioned ordering)))).
  { rewrite keys_without. now apply NoDup_filter. }
  unfold Py.keys at 1. rewrite !map_app. fold (Py.keys (picked kwargs pre)).
  fold (Py.keys (without kwargs (mentioned ordering))).
  fold (Py.keys (picked (without kwargs pre) post)).
  rewrite !picked_keys, present_without, first_occurrences_filter.
  rewrite !first_occurrences_app, filter_app, (first_occurrences_id NB).
  f_equal. f_equal.
  - symmetry. apply filter_id. intros k I.
    rewrite keys_without in I. apply filter_In in I. destruct I as [_ M].
    apply negb_true_iff in M. apply negb_true_iff. apply mem_false.
    intros P. apply present_In in P. destruct P as [P _].
    apply mem_false in M. apply M. rewrite mentioned_split.
    apply in_or_app. now left.
  - rewrite filter_filter. apply filter_ext_in. intros k I.
    apply first_occurrences_In, present_In in I. destruct I as [I D].
    assert (MB : mem k (Py.keys (without kwargs (mentioned ordering))) = false).
    { apply mem_false. rewrite keys_without, filter_In. intros [_ M].
      apply negb_true_iff, mem_false in M. apply M. rewrite mentioned_split.
      apply in_or_app. now right. }
    rewrite MB. cbn [negb andb]. f_equal.
    destruct (mem k pre) eqn:M.
    + symmetry. apply mem_In. apply present_In. split; [|exact D].
      now apply mem_In.
    + symmetry. apply mem_false. intros P. apply present_In in P.
      apply mem_false in M. now apply M.
Qed.

(** Each key keeps the value it had in [kwargs]. *)
Lemma outcome_values kwargs (ordering : list group) k :
  Py.dict_get (picked kwargs (mentioned (pre_wildcard ordering))
               ++ without kwargs (mentioned ordering)
               ++ picked (without kwargs (mentioned (pre_wildcard ordering)))
                    (mentioned (post_wildcard ordering))) k
  = Py.dict_get kwargs k.
Proof.
  rewrite !dict_get_app, !dict_get_picked, !dict_get_without.
  rewrite (mentioned_split ordering). unfold mem at 2. rewrite existsb_app.
  fold (mem k (mentioned (pre_wildcard ordering))).
  fold (mem k (mentioned (post_wildcard ordering))).
  destruct (mem k (mentioned (pre_wildcard ordering))),
    (mem k (mentioned (post_wildcard ordering))),
    (Py.dict_get kwargs k); reflexivity.
Qed.

(** A call whose ordering has no unknown string. *)
Lemma sort_kwargs_runs kwargs (ordering : list group) :
  Py.dict_wf kwargs ->
  wildcards_only ordering = true ->
  sort_kwargs kwargs ordering
  = (Ok (picked kwargs (mentioned (pre_wildcard ordering))
         ++ without kwargs (mentioned ordering)
         ++ picked (without kwargs (mentioned (pre_wildcard ordering)))
              (mentioned (post_wildcard ordering))),
     without kwargs (mentioned ordering)).
Proof.
  intros WF W. unfold sort_kwargs. rewrite sort_groups_run by exact W.
  destruct (run_groups_first ordering (untouched_initially kwargs))
    as (H1 & H2 & H3).
  cbn zeta in H1, H2, H3. rewrite H1, H2, H3. cbn [app]. msimpl.
  rewrite merged_buckets; [reflexivity|].
  rewrite outcome_keys by exact WF. apply first_occurrences_NoDup.
Qed.

(** A call whose ordering has an unknown string. *)
Lemma sort_kwargs_raises kwargs (before rest : list group) (s : string) :
  wildcards_only before = true ->
  String.eqb s "*" = false ->
  sort_kwargs kwargs (before ++ GroupStr s :: rest)
  = (Raise (ValueError ("Unknown kwarg group: " +++ s)),
     without kwargs (mentioned before)).
Proof.
  intros W S. unfold sort_kwargs. rewrite sort_groups_raise by assumption.
  destruct (run_groups_first before (untouched_initially kwargs)) as (H1 & _).
  cbn zeta in H1. rewrite H1. reflexivity.
Qed.

End SortOutcome.

(** ** C5, C6, C10: what [sort_kwargs] returns, raises and leaves behind *)

Lemma dict_get_In (V : Type) (d : Py.dict V) (k : string) (v : V) :
  Py.dict_get d k = Some v -> In (k, v) d.
Proof.
  induction d as [|[k' v'] d IH]; simpl; [discriminate|].
  destruct (String.eqb k k') eqn:E.
  - apply String.eqb_eq in E. intros [= ->]. subst. now left.
  - intros H. right. now apply IH.
Qed.

Lemma In_dict_get (V : Type) (d : Py.dict V) (k : string) (v : V) :
  Py.dict_wf d -> In (k, v) d -> Py.dict_get d k = Some v.
Proof.
  unfold Py.dict_wf, Py.keys.
  induction d as [|[k' v'] d IH]; simpl; [tauto|].
  intros N I. inversion N as [|? ? NI N']; subst.
  destruct I as [[= -> ->] | I].
  - now rewrite String.eqb_refl.
  - destruct (String.eqb k k') eqn:E; [|now apply IH].
    apply String.eqb_eq in E. subst. exfalso. apply NI.
    change k' with (fst (k', v)). now apply in_map.
Qed.

Lemma without_unrelated (V : Type) (d : Py.dict V) (names : list string) :
  (forall k, In k names -> Py.dict_in k d = false) -> without d names = d.
Proof.
  intros H. unfold without. apply filter_id. intros [k v] I.
  apply negb_true_iff, mem_false. intros M. cbn [fst] in M.
  specialize (H k M). apply not_true_iff_false in H. apply H.
  apply dict_in_iff. change k with (fst (k, v)). now apply in_map.
Qed.

(** C5. For every well-formed [kwargs] and every ordering whose elements
    are name groups or the wildcard, [sort_kwargs] returns a mapping with
    the values of [kwargs] whose key order is: the names of the groups
    before the wildcard that are keys of [kwargs], then the keys that no
    group mentions in their order in [kwargs], then the names of the
    groups after the wildcard that are keys of [kwargs]; a key stands at
    its first mention, and when no name is listed twice the key order is
    exactly that sequence. *)
Theorem sort_kwargs_key_order (V : Type) (kwargs : Py.dict V) (ordering : list group) :
  Py.dict_wf kwargs ->
  wildcards_only ordering = true ->
  exists sorted_dict,
    fst (sort_kwargs kwargs ordering) = Ok sorted_dict
    /\ Py.keys sorted_dict
       = first_occurrences
           (present kwargs (mentioned (pre_wildcard ordering))
            ++ Py.keys (without kwargs (mentioned ordering))
            ++ present kwargs (mentioned (post_wildcard ordering)))
    /\ (forall k, Py.dict_get sorted_dict k = Py.dict_get kwargs k)
    /\ (NoDup (mentioned ordering) ->
        Py.keys sorted_dict
        = present kwargs (mentioned (pre_wildcard ordering))
          ++ Py.keys (without kwargs (mentioned ordering))
          ++ present kwargs (mentioned (post_wildcard ordering))).
Proof.
  intros WF W. rewrite (sort_kwargs_runs ordering WF W). cbn [fst].
  eexists. split; [reflexivity|].
  rewrite (outcome_keys ordering WF).
  split; [reflexivity|]. split; [apply outcome_values|].
  intros N. apply first_occurrences_id.
  rewrite mentioned_split in N.
  assert (NB : NoDup (Py.keys (without kwargs (mentioned ordering)))).
  { rewrite keys_without. now apply NoDup_filter. }
  assert (OUT : forall k, In k (Py.keys (without kwargs (mentioned ordering))) ->
                          ~ In k (mentioned ordering)).
  { intros k I. rewrite keys_without in I. apply filter_In in I.
    destruct I as [_ M]. now apply negb_true_iff, mem_false in M. }
  apply NoDup_app.
  - apply NoDup_filter. now apply NoDup_app_remove_r in N.
  - apply NoDup_app.
    + exact NB.
    + apply NoDup_filter. now apply NoDup_app_remove_l in N.
    + intros k I P. apply present_In in P. destruct P as [P _].
      apply (OUT k I). rewrite mentioned_split. apply in_or_app. now right.
  - intros k P I. apply present_In in P. destruct P as [P _].
    apply in_app_or in I. destruct I as [I | I].
    + apply (OUT k I). rewrite mentioned_split. apply in_or_app. now left.
    + apply present_In in I. destruct I as [I _].
      revert P I. clear -N.
      induction (mentioned (pre_wildcard ordering)) as [|y l IH]; [tauto|].
      cbn [app] in N. inversion N as [|? ? NI N']; subst.
      intros [-> | P] I.
      * apply NI. apply in_or_app. now right.
      * now apply IH.
Qed.

(** The example of the specification: [y] first, [x] after the wildcard,
    [z] in between. *)
Lemma sort_kwargs_key_order_example :
  let kwargs := [("x", 1); ("y", 2); ("z", 3)] in
  let ordering := [GroupNames ["y"]; GroupStr "*"; GroupNames ["x"]] in
  exists sorted_dict,
    fst (sort_kwargs kwargs ordering) = Ok sorted_dict
    /\ Py.keys sorted_dict = first_occurrences (["y"] ++ ["z"] ++ ["x"])
    /\ (forall k, Py.dict_get sorted_dict k = Py.dict_get kwargs k)
    /\ (NoDup ["y"; "x"] -> Py.keys sorted_dict = ["y"] ++ ["z"] ++ ["x"]).
Proof.
  cbv zeta.
  apply (@sort_kwargs_key_order nat
           [("x", 1); ("y", 2); ("z", 3)]
           [GroupNames ["y"]; GroupStr "*"; GroupNames ["x"]]).
  - unfold Py.dict_wf. cbn.
    repeat (constructor; [cbn; intuition discriminate|]). constructor.
  - reflexivity.
Defined.

(** C10. On a successful call over a well-formed [kwargs], the caller's
    mapping is left holding exactly the entries whose key no group
    mentions: every mentioned key has been popped from it, although every
    original entry is in the returned mapping. *)
Theorem sort_kwargs_pops_mentioned (V : Type) (kwargs : Py.dict V)
  (ordering : list group) (sorted_dict : Py.dict V) :
  Py.dict_wf kwargs ->
  fst (sort_kwargs kwargs ordering) = Ok sorted_dict ->
  snd (sort_kwargs kwargs ordering) = without kwargs (mentioned ordering)
  /\ (forall k, In k (mentioned ordering) ->
                Py.dict_in k (snd (sort_kwargs kwargs ordering)) = false)
  /\ (forall k v, In (k, v) kwargs -> In (k, v) sorted_dict).
Proof.
  intros WF R.
  destruct (wildcards_only ordering) eqn:W.
  - rewrite (sort_kwargs_runs ordering WF W) in *. cbn [fst snd] in *.
    injection R as <-. split; [reflexivity|]. split.
    + intros k M. unfold Py.dict_in. rewrite dict_get_without.
      apply mem_In in M. now rewrite M.
    + intros k v I. apply dict_get_In. rewrite outcome_values.
      now apply In_dict_get.
  - destruct (first_unknown_group _ W) as (b & s & r & -> & Wb & S).
    rewrite sort_kwargs_raises in R by assumption. discriminate.
Qed.

Lemma sort_kwargs_pops_mentioned_example :
  let kwargs := [("x", 1); ("y", 2); ("z", 3)] in
  let ordering := [GroupNames ["y"]; GroupStr "*"; GroupNames ["x"]] in
  Py.dict_wf kwargs
  /\ fst (sort_kwargs kwargs ordering) = Ok [("y", 2); ("z", 3); ("x", 1)]
  /\ snd (sort_kwargs kwargs ordering) = [("z", 3)]
  /\ (forall k v, In (k, v) kwargs -> In (k, v) [("y", 2); ("z", 3); ("x", 1)]).
Proof.
  cbv zeta.
  assert (WF : Py.dict_wf [("x", 1); ("y", 2); ("z", 3)]).
  { unfold Py.dict_wf. cbn.
    repeat (constructor; [cbn; intuition discriminate|]). constructor. }
  split; [exact WF|]. split; [reflexivity|].
  destruct (@sort_kwargs_pops_mentioned nat
              [("x", 1); ("y", 2); ("z", 3)]
              [GroupNames ["y"]; GroupStr "*"; GroupNames ["x"]]
              [("y", 2); ("z", 3); ("x", 1)] WF eq_refl) as (H1 & _ & H3).
  split; [exact H1 | exact H3].
Defined.

(** C6, as the code has it. When an element of the ordering is a string
    other than the wildcard, [sort_kwargs] raises [ValueError] for the
    first such string, after the groups before it were processed: the
    caller's mapping has lost the keys those groups mention, and it is
    unchanged when they mention none of its keys. *)
Theorem sort_kwargs_unknown_group (V : Type) (kwargs : Py.dict V)
  (ordering : list group) :
  wildcards_only ordering = false ->
  exists before s rest,
    ordering = before ++ GroupStr s :: rest
    /\ wildcards_only before = true
    /\ String.eqb s "*" = false
    /\ sort_kwargs kwargs ordering
       = (Raise (ValueError ("Unknown kwarg group: " +++ s)),
          without kwargs (mentioned before))
    /\ ((forall k, In k (mentioned before) -> Py.dict_in k kwargs = false) ->
        snd (sort_kwargs kwargs ordering) = kwargs).
Proof.
  intros W. destruct (first_unknown_group _ W) as (b & s & r & -> & Wb & S).
  exists b, s, r. repeat split; try assumption.
  - now apply sort_kwargs_raises.
  - intros H. rewrite sort_kwargs_raises by assumption. cbn [snd].
    now apply without_unrelated.
Qed.

Lemma sort_kwargs_unknown_group_example :
  wildcards_only [GroupStr "not-a-wildcard"] = false
  /\ exists before s rest,
       [GroupStr "not-a-wildcard"] = before ++ GroupStr s :: rest
       /\ wildcards_only before = true
       /\ String.eqb s "*" = false
       /\ sort_kwargs [("x", 1)] [GroupStr "not-a-wildcard"]
          = (Raise (ValueError ("Unknown kwarg group: " +++ s)),
             without [("x", 1)] (mentioned before))
       /\ ((forall k, In k (mentioned before) -> Py.dict_in k [("x", 1)] = false) ->
           snd (sort_kwargs [("x", 1)] [GroupStr "not-a-wildcard"]) = [("x", 1)]).
Proof.
  split; [reflexivity|].
  apply (@sort_kwargs_unknown_group nat [("x", 1)] [GroupStr "not-a-wildcard"]).
  reflexivity.
Defined.

(** C6 as stated fails: a group that precedes the unknown string has been
    popped from the caller's mapping when the error is raised. *)
Lemma sort_kwargs_partial_effect :
  let kwargs := [("x", 1)] in
  let ordering := [GroupNames ["x"]; GroupStr "not-a-wildcard"] in
  fst (sort_kwargs kwargs ordering)
  = Raise (ValueError "Unknown kwarg group: not-a-wildcard")
  /\ snd (sort_kwargs kwargs ordering) = []
  /\ snd (sort_kwargs kwargs ordering) <> kwargs.
Proof.
  cbv zeta. split; [reflexivity|]. split; [reflexivity|]. cbn. discriminate.
Qed.

(** ** Lines of a text *)

Lemma nl_append (s : string) : Py.nl +++ s = String Py.nl_char s.
Proof. reflexivity. Qed.

Lemma contains_append (c : ascii) (a b : string) :
  Py.contains c (a +++ b) = Py.contains c a || Py.contains c b.
Proof.
  induction a as [|x a IH]; simpl; [reflexivity|].
  now rewrite IH, orb_assoc.
Qed.

(** A text without a separator is one part. *)
Lemma split_one (sep : ascii) (s : string) :
  Py.contains sep s = false -> Py.split sep s = [s].
Proof.
  induction s as [|a r IH]; simpl; [reflexivity|].
  destruct (Ascii.eqb a sep); simpl; [discriminate|].
  intros H. now rewrite (IH H).
Qed.

(** The parts of a text around one separator are the parts of what is
    before it, then the parts of what is after it. *)
Lemma split_around (sep : ascii) (a b : string) :
  Py.split sep (a +++ String sep b) = Py.split sep a ++ Py.split sep b.
Proof.
  induction a as [|x a IH]; simpl.
  - now rewrite Ascii.eqb_refl.
  - destruct (Ascii.eqb x sep); rewrite IH; [reflexivity|].
    destruct (Py.split sep a) as [|w ws] eqn:S; [|reflexivity].
    now apply split_not_nil in S.
Qed.

Lemma split_parts_plain (sep : ascii) (s part : string) :
  In part (Py.split sep s) -> Py.contains sep part = false.
Proof.
  revert part. induction s as [|a r IH]; simpl; intros part.
  - intros [<- | []]. reflexivity.
  - destruct (Ascii.eqb a sep) eqn:E.
    + intros [<- | I]; [reflexivity | now apply IH].
    + destruct (Py.split sep r) as [|w ws] eqn:S.
      * now apply split_not_nil in S.
      * intros [<- | I].
        -- simpl. rewrite E. apply IH. now left.
        -- apply IH. now right.
Qed.

Lemma lines_join (blocks : list string) :
  blocks <> [] ->
  lines (Py.join Py.nl blocks) = flat_map lines blocks.
Proof.
  unfold lines. induction blocks as [|b blocks IH]; [congruence|]. intros _.
  destruct blocks as [|b' blocks].
  - simpl. now rewrite app_nil_r.
  - change (Py.join Py.nl (b :: b' :: blocks))
      with (b +++ Py.nl +++ Py.join Py.nl (b' :: blocks)).
    rewrite nl_append, split_around, IH by discriminate. reflexivity.
Qed.

Lemma lines_plain (text : string) :
  Py.contains Py.nl_char text = false -> lines text = [text].
Proof. apply split_one. Qed.

(** Splitting what was joined gives the parts back when no part holds a
    line break. *)
Lemma lines_join_plain (blocks : list string) :
  blocks <> [] ->
  (forall b, In b blocks -> Py.contains Py.nl_char b = false) ->
  lines (Py.join Py.nl blocks) = blocks.
Proof.
  intros N H. rewrite lines_join by exact N. clear N.
  induction blocks as [|b blocks IH]; [reflexivity|].
  cbn [flat_map]. rewrite lines_plain by (apply H; now left).
  cbn [app]. f_equal. apply IH. intros b' I. apply H. now right.
Qed.

(** [indent] prefixes every line. *)
Lemma lines_indent (text : string) :
  lines (indent text) = map (fun line => INDENT +++ line) (lines text).
Proof.
  unfold indent. apply lines_join_plain.
  - unfold lines. intros E. apply map_eq_nil in E. now apply split_not_nil in E.
  - intros b I. apply in_map_iff in I. destruct I as (line & <- & I).
    rewrite contains_append. apply split_parts_plain in I. now rewrite I.
Qed.

Lemma append_inj_l (a b c : string) : a +++ b = a +++ c -> b = c.
Proof.
  induction a as [|x a IH]; simpl; [tauto|]. intros [= H]. now apply IH.
Qed.

(** ** The rendered body, block by block *)

Lemma concat_step (A : Type) (f : A -> string) (x : A) (l : list A) (rest : string) :
  String.concat "" (map f (x :: l)) +++ rest
  = f x +++ String.concat "" (map f l) +++ rest.
Proof.
  destruct l as [|y l]; [reflexivity|].
  change (String.concat "" (map f (x :: y :: l)))
    with (f x +++ String.concat "" (map f (y :: l))).
  apply append_assoc.
Qed.

Lemma join_step (b : string) (blocks : list string) :
  blocks <> [] ->
  Py.join Py.nl (b :: blocks) = b +++ Py.nl +++ Py.join Py.nl blocks.
Proof. destruct blocks; [congruence | reflexivity]. Qed.

(** The field lines, or the placeholder, after their leading line break. *)
Lemma render_fields (fields : list string) :
  match fields with
  | _ :: _ => String.concat "" (map (fun field => Py.nl +++ "    " +++ field) fields)
  | [] => Py.nl +++ PLACEHOLDER
  end
  = Py.nl +++ Py.join Py.nl
                match fields with
                | _ :: _ => map (fun field => "    " +++ field) fields
                | [] => [PLACEHOLDER]
                end.
Proof.
  destruct fields as [|f fs]; [reflexivity|].
  revert f. induction fs as [|g fs IH]; intros f; [reflexivity|].
  change (String.concat "" (map (fun field => Py.nl +++ "    " +++ field) (f :: g :: fs)))
    with ((Py.nl +++ "    " +++ f)
          +++ String.concat "" (map (fun field => Py.nl +++ "    " +++ field) (g :: fs))).
  rewrite IH. cbn [map]. rewrite (join_step ("    " +++ f)) by discriminate.
  now rewrite !append_assoc.
Qed.

(** The nested texts in front of what follows them. *)
Lemma render_nested (nested : list string) (blocks : list string) :
  blocks <> [] ->
  String.concat "" (map (fun code => Py.nl +++ code +++ Py.nl) nested)
  +++ Py.nl +++ Py.join Py.nl blocks
  = Py.nl +++ Py.join Py.nl (flat_map (fun code => [code; EmptyString]) nested ++ blocks).
Proof.
  intros N. induction nested as [|c cs IH]; [reflexivity|].
  rewrite concat_step, IH. cbn [flat_map app].
  rewrite !join_step; [now rewrite !append_assoc | |discriminate].
  destruct (flat_map (fun code => [code; EmptyString]) cs); [exact N | discriminate].
Qed.

(** The decorators in front of what follows them. *)
Lemma render_decorators (decorators : list string) (blocks : list string) :
  blocks <> [] ->
  String.concat "" (map (fun decorator => "@" +++ decorator +++ Py.nl) decorators)
  +++ Py.join Py.nl blocks
  = Py.join Py.nl (map (fun decorator => "@" +++ decorator) decorators ++ blocks).
Proof.
  intros N. induction decorators as [|d ds IH]; [reflexivity|].
  rewrite concat_step, IH. cbn [map app].
  rewrite join_step; [now rewrite !append_assoc|].
  destruct (map (fun decorator => "@" +++ decorator) ds); [exact N | discriminate].
Qed.

(** What [BODY] renders is its blocks, one per line break. *)
Lemma BODY_render_blocks (decorators : list string) (name : string)
  (nested fields : list string) :
  BODY_render decorators name nested fields
  = Py.join Py.nl (body_blocks decorators name nested fields).
Proof.
  unfold BODY_render, body_blocks.
  rewrite render_fields.
  set (tail := match fields with
               | _ :: _ => map (fun field => "    " +++ field) fields
               | [] => [PLACEHOLDER]
               end).
  assert (T : tail <> []) by (subst tail; destruct fields; discriminate).
  rewrite (render_nested nested T).
  set (body := flat_map (fun code => [code; EmptyString]) nested ++ tail).
  assert (B : body <> []).
  { subst body. destruct (flat_map _ nested); [exact T | discriminate]. }
  change (["class " +++ name +++ ":"] ++ body) with (("class " +++ name +++ ":") :: body).
  rewrite <- (render_decorators decorators (blocks := ("class " +++ name +++ ":") :: body))
    by discriminate.
  rewrite join_step by exact B. now rewrite !append_assoc.
Qed.

(** ** Loops that extend two lists *)

Section Collecting.
Variables (Ctx A I : Type).
Variable produce : A -> reader Ctx (list I * string).
Variable body : list I * list string -> A -> reader Ctx (list I * list string).

Hypothesis body_extends :
  forall acc x ctx,
    body acc x ctx
    = match produce x ctx with
      | Ok (i, s) => Ok (fst acc ++ i, snd acc ++ [s])
      | Raise e => Raise e
      end.

(** The loop succeeds exactly when every iteration does, and then it has
    appended what the iterations produced, in the order of the items. *)
Lemma for_each_collects (items : list A) (acc : list I * list string) (ctx : Ctx)
  (imports : list I) (strings : list string) :
  for_each body items acc ctx = Ok (imports, strings)
  <-> exists entries,
        Forall2 (fun x entry => produce x ctx = Ok entry) items entries
        /\ imports = fst acc ++ List.concat (map fst entries)
        /\ strings = snd acc ++ map snd entries.
Proof.
  revert acc. induction items as [|x items IH]; intros acc.
  - cbn [for_each]. msimpl. split.
    + intros [= ->]. exists []. cbn. rewrite !app_nil_r.
      repeat split. constructor.
    + intros (entries & F & -> & ->). inversion F; subst. cbn.
      rewrite !app_nil_r. now destruct acc.
  - cbn [for_each]. msimpl. rewrite body_extends.
    destruct (produce x ctx) as [[i s]|e] eqn:P.
    + rewrite IH. cbn [fst snd]. split.
      * intros (entries & F & -> & ->). exists ((i, s) :: entries).
        split; [now constructor|]. cbn. now rewrite <- !app_assoc.
      * intros (entries & F & -> & ->).
        inversion F as [|? e1 ? entries' P1 F']; subst.
        rewrite P in P1. injection P1 as <-. exists entries'.
        split; [exact F'|]. cbn. now rewrite <- !app_assoc.
    + split; [discriminate|]. intros (entries & F & _).
      inversion F as [|? e1 ? entries' P1 F']; subst. congruence.
Qed.

(** The first iteration that raises ends the loop with its exception. *)
Lemma for_each_raises (before after : list A) (x : A) (e : exception)
  (entries : list (list I * string)) (acc : list I * list string) (ctx : Ctx) :
  Forall2 (fun y entry => produce y ctx = Ok entry) before entries ->
  produce x ctx = Raise e ->
  for_each body (before ++ x :: after) acc ctx = Raise e.
Proof.
  intros F. revert acc. induction F as [|y entry before entries P F IH]; intros acc X.
  - cbn [app for_each]. msimpl. now rewrite body_extends, X.
  - cbn [app for_each]. msimpl. rewrite body_extends, P.
    destruct entry as [i s]. now apply IH.
Qed.

End Collecting.

(** ** C8: the order of the field lines *)

Lemma Forall2_tagged (A B C : Type) (tag : A) (P : A -> B -> C -> Prop)
  (l : list B) (entries : list C) :
  Forall2 (fun tagged entry => P (fst tagged) (snd tagged) entry)
    (map (pair tag) l) entries
  <-> Forall2 (fun x entry => P tag x entry) l entries.
Proof.
  revert entries. induction l as [|x l IH]; intros entries; split; intros F;
    inversion F; subst; constructor; try assumption; now apply IH.
Qed.

Lemma Forall2_in_r (A B : Type) (P : A -> B -> Prop) (l : list A) (l' : list B) (y : B) :
  Forall2 P l l' -> In y l' -> exists x, In x l /\ P x y.
Proof.
  induction 1 as [|x y' l l' H F IH]; [intros []|].
  intros [<- | I].
  - exists x. split; [now left | exact H].
  - destruct (IH I) as (x' & I' & H'). exists x'. split; [now right | exact H'].
Qed.


Section Fields.
Context {T : Types} {C : Collaborators}.
Variables (cls : generator_class) (self : instance) (model : ModelMeta).
Hypothesis self_has_model : self_model self = Ok model.

Lemma fields_body_extends (is_optional : nat)
  (acc : ImportPathList * list string) (field : string)
  (ctx : ContextInjectionType) :
  fields_body cls self is_optional acc field ctx
  = match field_entry cls self model (Py.bool_of_nat is_optional) field ctx with
    | Ok (i, s) => Ok (fst acc ++ i, snd acc ++ [s])
    | Raise e => Raise e
    end.
Proof.
  unfold fields_body, field_entry. destruct acc as [imports strings].
  msimpl. rewrite self_has_model.
  destruct (Py.dict_getitem (type model) field) as [meta|e]; [|reflexivity].
  now destruct (cls_field_data cls self field meta (Py.bool_of_nat is_optional) ctx)
    as [[field_imports data]|e].
Qed.

(** [fields] succeeds exactly when every field can be rendered, and then
    it has one entry per field, first the required names and then the
    optional ones. *)
Lemma fields_collects (required optional : list string)
  (ctx : ContextInjectionType) (imports : ImportPathList) (strings : list string) :
  sort_fields model ctx = Ok (required, optional) ->
  (fields cls self ctx = Ok (imports, strings)
   <-> exists entries,
         Forall2
           (fun tagged entry =>
              field_entry cls self model (fst tagged) (snd tagged) ctx = Ok entry)
           (map (pair false) required ++ map (pair true) optional) entries
         /\ imports = List.concat (map fst entries)
         /\ strings = map snd entries).
Proof.
  intros S. unfold fields. msimpl. rewrite self_has_model, S.
  cbn [Py.enumerate List.length seq combine for_each]. msimpl.
  split.
  - match goal with
    | |- match ?loop with _ => _ end = _ -> _ =>
        destruct loop as [[i1 s1]|e] eqn:L1; [|easy]
    end.
    match goal with
    | |- match ?loop with _ => _ end = _ -> _ =>
        destruct loop as [[i2 s2]|e] eqn:L2; [|easy]
    end.
    intros [= <- <-].
    apply (for_each_collects _ _ (fields_body_extends 0)) in L1.
    apply (for_each_collects _ _ (fields_body_extends 1)) in L2.
    destruct L1 as (e1 & F1 & -> & ->). destruct L2 as (e2 & F2 & -> & ->).
    exists (e1 ++ e2). split.
    + apply Forall2_app.
      * now apply (Forall2_tagged false
                     (fun o f entry => field_entry cls self model o f ctx = Ok entry)).
      * now apply (Forall2_tagged true
                     (fun o f entry => field_entry cls self model o f ctx = Ok entry)).
    + cbn [fst snd app]. now rewrite !map_app, concat_app.
  - intros (entries & F & -> & ->).
    apply Forall2_app_inv_l in F. destruct F as (e1 & e2 & F1 & F2 & ->).
    apply (Forall2_tagged false
             (fun o f entry => field_entry cls self model o f ctx = Ok entry)) in F1.
    apply (Forall2_tagged true
             (fun o f entry => field_entry cls self model o f ctx = Ok entry)) in F2.
    match goal with
    | |- match ?loop with _ => _ end = _ =>
        assert (L1 : loop = Ok (List.concat (map fst e1), map snd e1))
          by (apply (for_each_collects _ _ (fields_body_extends 0)); now exists e1);
        rewrite L1
    end.
    match goal with
    | |- match ?loop with _ => _ end = _ =>
        assert (L2 : loop = Ok (List.concat (map fst e1) ++ List.concat (map fst e2),
                                map snd e1 ++ map snd e2))
          by (apply (for_each_collects _ _ (fields_body_extends 1)); now exists e2);
        rewrite L2
    end.
    now rewrite !map_app, concat_app.
Qed.

(** Every rendered field line comes from [FIELD]. *)
Lemma fields_are_rendered (ctx : ContextInjectionType)
  (imports : ImportPathList) (strings : list string) :
  fields cls self ctx = Ok (imports, strings) ->
  forall line, In line strings -> exists data, line = FIELD_render data.
Proof.
  intros F line I.
  destruct (sort_fields model ctx) as [[required optional]|e] eqn:S.
  - apply (fields_collects ctx imports strings S) in F.
    destruct F as (entries & F & _ & ->).
    apply in_map_iff in I. destruct I as ([i s] & <- & I).
    destruct (@Forall2_in_r _ _ _ _ _ _ F I) as ([optional' field] & _ & E).
    revert E. unfold field_entry. msimpl. cbn [fst snd].
    destruct (Py.dict_getitem (type model) field) as [meta|e]; [|discriminate].
    destruct (cls_field_data cls self field meta optional' ctx)
      as [[field_imports data]|e]; [|discriminate].
    intros [= <- <-]. now exists data.
  - revert F. unfold fields. msimpl. rewrite self_has_model, S. discriminate.
Qed.

(** C8. Given the two sequences of the field-ordering helper, [fields]
    succeeds exactly when every field can be rendered, and then it renders
    one line per field in required-then-optional order: the names of the
    required sequence first, in the order of the helper and flagged as not
    optional, then the names of the optional sequence in the order of the
    helper, flagged as optional; the imports are collected in the same
    order. *)
Theorem fields_required_then_optional (required optional : list string)
  (ctx : ContextInjectionType) (imports : ImportPathList) (strings : list string) :
  sort_fields model ctx = Ok (required, optional) ->
  (fields cls self ctx = Ok (imports, strings)
   <-> exists entries,
         Forall2
           (fun tagged entry =>
              field_entry cls self model (fst tagged) (snd tagged) ctx = Ok entry)
           (map (pair false) required ++ map (pair true) optional) entries
         /\ imports = List.concat (map fst entries)
         /\ strings = map snd entries).
Proof. apply fields_collects. Qed.

End Fields.

(** ** C4: the placeholder line *)

Lemma FIELD_render_has_colon (data : Py.dict string) :
  Py.contains ":"%char (FIELD_render data) = true.
Proof.
  unfold FIELD_render. rewrite !contains_append. cbn. now rewrite !orb_true_r.
Qed.

Lemma flat_map_lines_plain (blocks : list string) :
  (forall b, In b blocks -> Py.contains Py.nl_char b = false) ->
  flat_map lines blocks = blocks.
Proof.
  induction blocks as [|b blocks IH]; intros H; [reflexivity|].
  cbn [flat_map]. rewrite lines_plain by (apply H; now left).
  cbn [app]. f_equal. apply IH. intros b' I. apply H. now right.
Qed.

Lemma lines_nested_blocks (nested : list string) :
  flat_map lines (flat_map (fun code => [code; EmptyString]) nested)
  = flat_map (fun code => lines code ++ [EmptyString]) nested.
Proof.
  induction nested as [|c cs IH]; [reflexivity|].
  cbn [flat_map app]. rewrite IH. now rewrite <- app_assoc.
Qed.

Lemma flat_map_of_map (A B D : Type) (f : B -> list D) (g : A -> B) (l : list A) :
  flat_map f (map g l) = flat_map (fun x => f (g x)) l.
Proof. induction l as [|x l IH]; cbn; [reflexivity | now rewrite IH]. Qed.

Section Generate.
Context {T : Types} {C : Collaborators}.
Variables (cls : generator_class) (self : instance).

Lemma generate_renders (nested_classes : option (list string))
  (ctx : ContextInjectionType) (imports : ImportPathList) (flds : list string)
  (model : ModelMeta) :
  fields cls self ctx = Ok (imports, flds) ->
  self_model self = Ok model ->
  generate cls self nested_classes ctx
  = Ok (imports,
        BODY_render (cls_decorators cls self) (name model)
          (map indent (nested_texts nested_classes)) flds).
Proof.
  intros F M. unfold generate. msimpl. rewrite F. msimpl. rewrite M.
  now destruct nested_classes as [[|s rest]|].
Qed.

Lemma generate_inv (nested_classes : option (list string))
  (ctx : ContextInjectionType) (imports : ImportPathList) (text : string) :
  generate cls self nested_classes ctx = Ok (imports, text) ->
  exists model flds,
    self_model self = Ok model
    /\ fields cls self ctx = Ok (imports, flds)
    /\ text = BODY_render (cls_decorators cls self) (name model)
                (map indent (nested_texts nested_classes)) flds.
Proof.
  intros G.
  destruct (fields cls self ctx) as [[imports' flds]|e] eqn:F.
  - destruct (self_model self) as [model|e] eqn:M.
    + erewrite generate_renders in G by eassumption.
      injection G as <- <-. now exists model, flds.
    + revert G. unfold generate. msimpl. rewrite F. msimpl. now rewrite M.
  - revert G. unfold generate. msimpl. now rewrite F.
Qed.

Lemma lines_BODY_render (decorators : list string) (name : string)
  (nested flds : list string) :
  lines (BODY_render decorators name nested flds)
  = flat_map lines (body_blocks decorators name nested flds).
Proof.
  rewrite BODY_render_blocks. apply lines_join.
  unfold body_blocks. destruct (map _ decorators); discriminate.
Qed.

(** With fields, no line of the body is the placeholder line. *)
Lemma placeholder_absent (decorators : list string) (name : string)
  (nested_classes flds : list string) :
  flds <> [] ->
  (forall d, In d decorators -> Py.contains Py.nl_char d = false) ->
  Py.contains Py.nl_char name = false ->
  (forall code, In code nested_classes -> ~ In "pass" (lines code)) ->
  (forall f, In f flds -> Py.contains Py.nl_char f = false) ->
  (forall f, In f flds -> exists data, f = FIELD_render data) ->
  ~ In PLACEHOLDER (lines (BODY_render decorators name (map indent nested_classes) flds)).
Proof.
  intros NE HD HN HC HF HR. rewrite lines_BODY_render.
  intros I. apply in_flat_map in I. destruct I as (block & B & I).
  unfold body_blocks in B.
  apply in_app_or in B. destruct B as [B | B].
  { apply in_map_iff in B. destruct B as (d & <- & D).
    rewrite lines_plain in I by (rewrite contains_append; now rewrite (HD d D)).
    destruct I as [I | []]. discriminate. }
  apply in_app_or in B. destruct B as [B | B].
  { destruct B as [<- | []].
    rewrite lines_plain in I
      by (rewrite !contains_append; now rewrite HN).
    destruct I as [I | []]. discriminate. }
  apply in_app_or in B. destruct B as [B | B].
  { apply in_flat_map in B. destruct B as (code & M & B).
    apply in_map_iff in M. destruct M as (c & <- & M).
    destruct B as [<- | [<- | []]].
    - rewrite lines_indent in I. apply in_map_iff in I.
      destruct I as (line & E & I).
      change PLACEHOLDER with (INDENT +++ "pass") in E.
      apply append_inj_l in E. subst. now apply (HC c M).
    - destruct I as [I | []]. discriminate. }
  destruct flds as [|f0 flds]; [congruence|].
  apply in_map_iff in B. destruct B as (f & <- & F).
  rewrite lines_plain in I by (rewrite contains_append; now rewrite (HF f F)).
  destruct I as [I | []].
  change PLACEHOLDER with ("    " +++ "pass") in I.
  apply append_inj_l in I. destruct (HR f F) as (data & ->).
  pose proof (FIELD_render_has_colon data) as K. rewrite I in K. discriminate.
Qed.

(** Without fields the lines of the body are those of the decorators, the
    header and the nested texts, each nested text followed by an empty
    line, and then the placeholder line, which is the last. *)
Lemma lines_without_fields (decorators : list string) (name : string)
  (nested_classes : list string) :
  lines (BODY_render decorators name (map indent nested_classes) [])
  = flat_map lines (map (fun decorator => "@" +++ decorator) decorators)
    ++ lines ("class " +++ name +++ ":")
    ++ flat_map (fun code => lines (indent code) ++ [EmptyString]) nested_classes
    ++ [PLACEHOLDER].
Proof.
  rewrite lines_BODY_render. unfold body_blocks.
  rewrite !flat_map_app, lines_nested_blocks.
  rewrite (flat_map_of_map (fun code => lines code ++ [EmptyString]) indent).
  cbn [flat_map]. now rewrite app_nil_r.
Qed.

(** No line above the fields or the placeholder is the placeholder line. *)
Lemma placeholder_not_above (decorators : list string) (name : string)
  (nested_classes : list string) :
  (forall d, In d decorators -> Py.contains Py.nl_char d = false) ->
  Py.contains Py.nl_char name = false ->
  (forall code, In code nested_classes -> ~ In "pass" (lines code)) ->
  ~ In PLACEHOLDER
      (flat_map lines (map (fun decorator => "@" +++ decorator) decorators)
       ++ lines ("class " +++ name +++ ":")
       ++ flat_map (fun code => lines (indent code) ++ [EmptyString])
            nested_classes).
Proof.
  intros HD HN HC I.
  apply in_app_or in I. destruct I as [I | I].
  { apply in_flat_map in I. destruct I as (block & B & I).
    apply in_map_iff in B. destruct B as (d & <- & D).
    rewrite lines_plain in I by (rewrite contains_append; now rewrite (HD d D)).
    destruct I as [I | []]. discriminate. }
  apply in_app_or in I. destruct I as [I | I].
  { rewrite lines_plain in I by (rewrite !contains_append; now rewrite HN).
    destruct I as [I | []]. discriminate. }
  apply in_flat_map in I. destruct I as (code & M & I).
  apply in_app_or in I. destruct I as [I | [I | []]]; [|discriminate].
  rewrite lines_indent in I. apply in_map_iff in I.
  destruct I as (line & E & I).
  change PLACEHOLDER with (INDENT +++ "pass") in E.
  apply append_inj_l in E. subst. now apply (HC code M).
Qed.

(** C4, as the code has it. In the text that [generate] returns, whenever
    the rendered field list is empty the last line is the placeholder
    line, also when nested declarations are rendered into the body: it
    then follows them and the empty line that closes each. Provided no
    decorator or name holds a line break and no nested text has a line
    that is the bare word [pass], that placeholder line is the only one
    of the text; and it is absent whenever a field line is rendered, the
    field lines holding no line break. *)
Theorem placeholder_iff_no_fields (nested_classes : option (list string))
  (ctx : ContextInjectionType) (imports : ImportPathList) (text : string) :
  generate cls self nested_classes ctx = Ok (imports, text) ->
  exists model flds,
    self_model self = Ok model
    /\ fields cls self ctx = Ok (imports, flds)
    /\ (flds = [] ->
        lines text
        = flat_map lines
            (map (fun decorator => "@" +++ decorator) (cls_decorators cls self))
          ++ lines ("class " +++ name model +++ ":")
          ++ flat_map (fun code => lines (indent code) ++ [EmptyString])
               (nested_texts nested_classes)
          ++ [PLACEHOLDER])
    /\ ((forall d, In d (cls_decorators cls self) -> Py.contains Py.nl_char d = false) ->
        Py.contains Py.nl_char (name model) = false ->
        (forall code, In code (nested_texts nested_classes) ->
                      ~ In "pass" (lines code)) ->
        (flds = [] -> count_occ string_dec (lines text) PLACEHOLDER = 1)
        /\ (flds <> [] ->
            (forall f, In f flds -> Py.contains Py.nl_char f = false) ->
            ~ In PLACEHOLDER (lines text))).
Proof.
  intros G. apply generate_inv in G. destruct G as (model & flds & M & F & ->).
  exists model, flds. split; [exact M|]. split; [exact F|]. split.
  - intros ->. apply lines_without_fields.
  - intros HD HN HC. split.
    + intros ->. rewrite lines_without_fields, !app_assoc, count_occ_app.
      rewrite <- !app_assoc.
      rewrite (proj1 (count_occ_not_In string_dec _ _)
                 (@placeholder_not_above _ _ _ HD HN HC)).
      cbn [count_occ]. now destruct (string_dec PLACEHOLDER PLACEHOLDER).
    + intros NE HF. apply placeholder_absent; try assumption.
      eapply fields_are_rendered; eassumption.
Qed.

End Generate.

(** ** C3: what the constructor stores *)

Section Constructor.
Context {T : Types} {C : Collaborators}.

(** Keywords that name no parameter bound by position are all collected. *)
Lemma bind_keywords_collects (V : Type) (kwargs : Py.dict V) :
  (forall key, In key positional -> Py.dict_in key kwargs = false) ->
  bind_keywords kwargs = Ok kwargs.
Proof.
  intros Free. unfold bind_keywords.
  destruct (find _ (Py.keys kwargs)) as [key|] eqn:F; [|reflexivity].
  apply find_some in F. destruct F as [I M]. apply mem_In in M.
  apply dict_in_iff in I. rewrite (Free key M) in I. discriminate.
Qed.

(** A keyword that names a parameter bound by position is refused. *)
Lemma bind_keywords_refuses (V : Type) (kwargs : Py.dict V) (clash : string) :
  In clash positional ->
  Py.dict_in clash kwargs = true ->
  exists key,
    In key positional /\ Py.dict_in key kwargs = true
    /\ bind_keywords kwargs = Raise (TypeError key).
Proof.
  intros P I. unfold bind_keywords.
  destruct (find _ (Py.keys kwargs)) as [key|] eqn:F.
  - apply find_some in F. destruct F as [K M]. exists key.
    split; [now apply mem_In|]. split; [now apply dict_in_iff | reflexivity].
  - apply dict_in_iff in I. apply (find_none _ _ F) in I.
    apply mem_false in I. contradiction.
Qed.

(** C3, as the code has it. Constructing [GenericModelCodeGenerator] with a
    model and an extra keyword configuration that names neither [self] nor
    [model] returns an instance whose only attribute is the model: the
    keyword configuration is accepted and dropped, no entry of it is
    stored, and the instance is the one built without any. A keyword
    configuration that names [self] or [model] is refused: the call raises
    [TypeError] for such a name, and no instance is built. *)
Theorem init_stores_only_model (model : ModelMeta) (kwargs : Py.dict KwargValue) :
  ((forall key, In key positional -> Py.dict_in key kwargs = false) ->
   exists self,
     construct GenericModelCodeGenerator model kwargs = Ok self
     /\ self = [("model", AttrModel model)]
     /\ self_model self = Ok model
     /\ (forall key, Py.dict_in key kwargs = true -> Py.dict_get self key = None)
     /\ construct GenericModelCodeGenerator model [] = Ok self)
  /\ (forall clash,
        In clash positional -> Py.dict_in clash kwargs = true ->
        exists key,
          In key positional /\ Py.dict_in key kwargs = true
          /\ construct GenericModelCodeGenerator model kwargs
             = Raise (TypeError key)).
Proof.
  unfold construct. cbn [cls_init GenericModelCodeGenerator]. unfold __init__.
  split.
  - intros Free. exists [("model", AttrModel model)].
    rewrite (bind_keywords_collects kwargs Free).
    repeat split. intros key I. cbn.
    destruct (String.eqb key "model") eqn:E; [|reflexivity].
    apply String.eqb_eq in E. subst key.
    rewrite Free in I; [discriminate | cbn; tauto].
  - intros clash P I.
    destruct (@bind_keywords_refuses _ kwargs clash P I) as (key & K & D & B).
    exists key. split; [exact K|]. split; [exact D|]. now rewrite B.
Qed.

End Constructor.

(** ** The tree walker, node by node *)

Section Walker.
Context {T : Types} {C : Collaborators}.
Variables (cls : generator_class) (kw : Py.dict KwargValue).

Lemma walker_body_extends (lvl : nat) (acc : ImportPathList * list string)
  (data : node) (ctx : ContextInjectionType) :
  _generate_code_body cls kw lvl acc data ctx
  = match node_code cls kw lvl data ctx with
    | Ok (i, s) => Ok (fst acc ++ i, snd acc ++ [s])
    | Raise e => Raise e
    end.
Proof.
  destruct data as [model nested]. destruct acc as [imports classes].
  cbn [_generate_code_body]. unfold node_code, generated, _generate_code.
  cbn [node_nested node_model fst snd]. msimpl.
  match goal with
  | |- match ?walk with _ => _ end = _ =>
      destruct walk as [[nested_imports nested_classes]|e]; [|reflexivity]
  end.
  destruct (construct cls model kw) as [gen|e]; [|reflexivity].
  match goal with
  | |- match ?gen with _ => _ end = _ =>
      destruct gen as [[cls_imports cls_string]|e]; [|reflexivity]
  end.
  now rewrite app_assoc.
Qed.

(** The walker succeeds exactly when every node of the sequence does, and
    then it has the imports and the declarations of the nodes in input
    order. *)
Lemma walker_collects (structure : list node) (lvl : nat)
  (ctx : ContextInjectionType) (imports : ImportPathList) (classes : list string) :
  _generate_code structure cls kw lvl ctx = Ok (imports, classes)
  <-> exists entries,
        Forall2 (fun data entry => node_code cls kw lvl data ctx = Ok entry)
          structure entries
        /\ imports = List.concat (map fst entries)
        /\ classes = map snd entries.
Proof.
  unfold _generate_code.
  apply (for_each_collects _ _ (walker_body_extends lvl)).
Qed.


(** A node succeeds exactly when its children and then its own generator
    do: its imports are those of the children followed by its own. *)
Lemma node_code_inv (lvl : nat) (data : node) (ctx : ContextInjectionType)
  (imports : ImportPathList) (text : string) :
  node_code cls kw lvl data ctx = Ok (imports, text)
  <-> exists nested_imports nested_classes cls_imports,
        _generate_code (node_nested data) cls kw (lvl + 1) ctx
        = Ok (nested_imports, nested_classes)
        /\ generated cls (node_model data) kw (Some nested_classes) ctx
           = Ok (cls_imports, text)
        /\ imports = nested_imports ++ cls_imports.
Proof.
  unfold node_code. msimpl.
  destruct (_generate_code (node_nested data) cls kw (lvl + 1) ctx)
    as [[ni nc]|e] eqn:W.
  - destruct (generated cls (node_model data) kw (Some nc) ctx)
      as [[ci cs]|e] eqn:G.
    + split.
      * intros [= <- <-]. now exists ni, nc, ci.
      * intros (ni' & nc' & ci' & [= <- <-] & G' & ->).
        rewrite G in G'. now injection G' as <- <-.
    + split; [discriminate|].
      intros (ni' & nc' & ci' & [= <- <-] & G' & _).
      rewrite G in G'. discriminate.
  - split; [discriminate|]. intros (ni' & nc' & ci' & W' & _). discriminate.
Qed.

Lemma walker_in_order (structure : list node) (lvl : nat)
  (ctx : ContextInjectionType) (imports : ImportPathList) (classes : list string) :
  _generate_code structure cls kw lvl ctx = Ok (imports, classes) ->
  exists entries,
    Forall2 (fun data entry => walked cls kw lvl ctx data (fst entry) (snd entry))
      structure entries
    /\ imports = List.concat (map fst entries)
    /\ classes = map snd entries.
Proof.
  intros W. apply walker_collects in W. destruct W as (entries & F & -> & ->).
  exists entries. split; [|now split].
  induction F as [|data [i s] structure entries N F IH]; constructor; [|exact IH].
  now apply node_code_inv.
Qed.



End Walker.

(** ** C1, C2, C9: the orchestrator *)

Section Orchestrator.
Context {T : Types} {C : Collaborators}.
Variables (cls : generator_class) (kwargs : option (Py.dict KwargValue)).
Variables (root : list node) (mapping : ContextInjectionType).
Variable objects_delimiter : string.

(** The scoped activation runs its body with [mapping] active and leaves
    the slot as it found it, whatever the body did to it. *)
Lemma with_inject_scoped (A : Type) (body : stateful ContextInjectionType A)
  (slot : ContextInjectionType) :
  with_inject mapping body slot = (fst (body mapping), slot).
Proof. unfold with_inject, inject_enter, inject_exit. now destruct (body mapping). Qed.

(** [generate_code] once the walk is over. *)
Lemma generate_code_after_walk (slot : ContextInjectionType) :
  generate_code (root, mapping) cls kwargs objects_delimiter slot
  = (match _generate_code root cls (or_empty kwargs) 0 mapping with
     | Raise e => Raise e
     | Ok ([], classes) =>
         Ok (Py.join objects_delimiter classes +++ Py.nl)
     | Ok (import :: imports, classes) =>
         match compile_imports (import :: imports) slot with
         | Raise e => Raise e
         | Ok text =>
             Ok ((text +++ objects_delimiter)
                 +++ Py.join objects_delimiter classes +++ Py.nl)
         end
     end, slot).
Proof.
  unfold generate_code. msimpl. rewrite with_inject_scoped.
  unfold reading at 1. cbn [fst].
  destruct (_generate_code root cls (or_empty kwargs) 0 mapping)
    as [[[|import imports] classes]|e]; msimpl; try reflexivity.
  unfold reading.
  now destruct (compile_imports (import :: imports) slot).
Qed.

(** C1. When the walk of a structure succeeds with the imports and the
    declarations of its roots, [generate_code] returns: without imports,
    the declarations joined by the delimiter and one newline, with no
    import block; with imports, the compiled import text, one delimiter,
    the joined declarations and one newline. The declarations are those
    of the root nodes, in input order. *)
Theorem generate_code_layout (slot : ContextInjectionType)
  (imports : ImportPathList) (classes : list string) :
  _generate_code root cls (or_empty kwargs) 0 mapping = Ok (imports, classes) ->
  (imports = [] ->
   fst (generate_code (root, mapping) cls kwargs objects_delimiter slot)
   = Ok (Py.join objects_delimiter classes +++ Py.nl))
  /\ (imports <> [] ->
      forall text, compile_imports imports slot = Ok text ->
      fst (generate_code (root, mapping) cls kwargs objects_delimiter slot)
      = Ok (text +++ objects_delimiter
            +++ Py.join objects_delimiter classes +++ Py.nl))
  /\ Forall2
       (fun data text =>
          exists subtree_imports,
            walked cls (or_empty kwargs) 0 mapping data subtree_imports text)
       root classes.
Proof.
  intros W. rewrite generate_code_after_walk, W. cbn [fst]. repeat split.
  - now intros ->.
  - intros NE text CI. destruct imports as [|import imports']; [congruence|].
    rewrite CI. now rewrite append_assoc.
  - apply walker_in_order in W. destruct W as (entries & F & _ & ->).
    induction F as [|data [i s] structure entries N F IH]; constructor;
      [now exists i | exact IH].
Qed.


(** C9. [generate_code] runs the walk with the reference mapping of the
    structure active, and with nothing else of the call under it: the
    import compiler runs after the release. The slot is as it was before
    the call on every exit: when the call returns, when the walk raises,
    when the import compiler raises; the scoped activation gives the slot
    back whatever its body does. *)
Theorem generate_code_releases_context (slot : ContextInjectionType) :
  snd (generate_code (root, mapping) cls kwargs objects_delimiter slot) = slot
  /\ (forall e,
        _generate_code root cls (or_empty kwargs) 0 mapping = Raise e ->
        generate_code (root, mapping) cls kwargs objects_delimiter slot
        = (Raise e, slot))
  /\ (forall imports classes e,
        _generate_code root cls (or_empty kwargs) 0 mapping = Ok (imports, classes) ->
        imports <> [] ->
        compile_imports imports slot = Raise e ->
        generate_code (root, mapping) cls kwargs objects_delimiter slot
        = (Raise e, slot))
  /\ (forall (A : Type) (body : stateful ContextInjectionType A),
        with_inject mapping body slot = (fst (body mapping), slot)).
Proof.
  rewrite generate_code_after_walk. repeat split.
  - intros e W. now rewrite W.
  - intros imports classes e W NE CI. rewrite W.
    destruct imports as [|import imports']; [congruence|]. now rewrite CI.
  - intros A body. apply with_inject_scoped.
Qed.

End Orchestrator.

(* ================================================================== *)
(** * Part III. Further properties of the code *)
(* ================================================================== *)

(** ** The template utility: round trips *)

(** [template] as one expression: the loop over the two ends never raises. *)
Lemma template_unfolds (pattern ind : string) :
  template pattern ind = Ok (TemplateSpec.template_text pattern ind).
Proof.
  unfold template, TemplateSpec.template_text.
  destruct (Py.contains Py.nl_char pattern) eqn:N; [|reflexivity].
  destruct (split_contains _ _ N) as (first & second & rest & ->).
  cbn [for_each List.hd List.tl].
  change (List.last (first :: second :: rest) EmptyString)
    with (List.last (second :: rest) EmptyString).
  rewrite getitem_first. msimpl. rewrite strip_blank.
  destruct (TemplateSpec.whitespace_only first).
  - rewrite delitem_first. msimpl.
    rewrite (getitem_last EmptyString). msimpl. rewrite strip_blank.
    destruct (TemplateSpec.whitespace_only (List.last (second :: rest) EmptyString)).
    + rewrite delitem_last. msimpl. now rewrite dedent_lines.
    + msimpl. now rewrite dedent_lines.
  - msimpl.
    rewrite (getitem_last EmptyString). msimpl. rewrite strip_blank.
    change (List.last (first :: second :: rest) EmptyString)
      with (List.last (second :: rest) EmptyString).
    destruct (TemplateSpec.whitespace_only (List.last (second :: rest) EmptyString)).
    + rewrite delitem_last. msimpl. now rewrite dedent_lines.
    + msimpl. now rewrite dedent_lines.
Qed.

Lemma join_text_cons (sep : string) (a : ascii) (w : string) (ws : list string) :
  Py.join sep (String a w :: ws) = String a (Py.join sep (w :: ws)).
Proof. destruct ws; reflexivity. Qed.

(** Joining the lines of a text gives the text back. *)
Lemma join_split (s : string) : Py.join Py.nl (Py.split Py.nl_char s) = s.
Proof.
  induction s as [|a r IH]; [reflexivity|].
  cbn [Py.split]. destruct (Ascii.eqb a Py.nl_char) eqn:E.
  - apply Ascii.eqb_eq in E. subst a.
    destruct (Py.split Py.nl_char r) as [|w ws] eqn:S.
    + now apply split_not_nil in S.
    + change (Py.join Py.nl (EmptyString :: w :: ws))
        with (String Py.nl_char (Py.join Py.nl (w :: ws))).
      now rewrite IH.
  - destruct (Py.split Py.nl_char r) as [|w ws] eqn:S.
    + now apply split_not_nil in S.
    + now rewrite join_text_cons, IH.
Qed.

Lemma strip_prefix_prefixed (ind line : string) :
  TemplateSpec.strip_prefix ind (ind +++ line) = Some line.
Proof.
  induction ind as [|a u IH]; [now destruct line|].
  cbn. now rewrite Ascii.eqb_refl.
Qed.

Lemma dedent_line_prefixed (ind line : string) :
  TemplateSpec.dedent_line ind (ind +++ line) = line.
Proof. unfold TemplateSpec.dedent_line. now rewrite strip_prefix_prefixed. Qed.

Lemma lines_not_nil (text : string) : lines text <> [].
Proof. apply split_not_nil. Qed.

(** X1. A block of text written one indent unit deep between a leading
    line break and a trailing whitespace-only line comes back as it was:
    for every text, [template] of a line break, the lines of the text each
    prefixed by the unit, a line break and blanks is the text itself. *)
Theorem template_undoes_indentation (text ind trailing : string) :
  Py.contains Py.nl_char ind = false ->
  Py.contains Py.nl_char trailing = false ->
  TemplateSpec.whitespace_only trailing = true ->
  template
    (Py.nl +++ Py.join Py.nl (map (fun line => ind +++ line) (lines text))
     +++ Py.nl +++ trailing)
    ind
  = Ok text.
Proof.
  intros NI NT WT. rewrite template_unfolds. f_equal.
  unfold TemplateSpec.template_text.
  set (blocks := map (fun line => ind +++ line) (lines text)).
  assert (NB : blocks <> []).
  { subst blocks. intros E. apply map_eq_nil in E. now apply lines_not_nil in E. }
  assert (PB : forall b, In b blocks -> Py.contains Py.nl_char b = false).
  { subst blocks. intros b I. apply in_map_iff in I. destruct I as (line & <- & I).
    rewrite contains_append, NI. now apply split_parts_plain in I. }
  assert (S : Py.split Py.nl_char
                (Py.nl +++ Py.join Py.nl blocks +++ Py.nl +++ trailing)
              = EmptyString :: blocks ++ [trailing]).
  { rewrite !nl_append. cbn [Py.split]. rewrite Ascii.eqb_refl. f_equal.
    rewrite split_around. fold (lines (Py.join Py.nl blocks)).
    rewrite (lines_join_plain NB PB). now rewrite (split_one _ _ NT). }
  rewrite S. cbn [Py.contains append Py.nl]. rewrite Ascii.eqb_refl. cbn [orb].
  cbn [List.hd TemplateSpec.whitespace_only List.tl].
  assert (L : List.last (EmptyString :: blocks ++ [trailing]) EmptyString = trailing).
  { change (EmptyString :: blocks ++ [trailing])
      with ((EmptyString :: blocks) ++ [trailing]). apply last_last. }
  rewrite L, WT, removelast_last. subst blocks.
  rewrite map_map.
  rewrite (map_ext _ (fun line => line) (dedent_line_prefixed ind)), map_id.
  apply join_split.
Qed.

(** X2. A pattern that is already flat is handed on unchanged: when its
    first and its last line are not whitespace-only and no line of it
    loses anything by the dedent, [template] returns the pattern. *)
Theorem template_flat_pattern_unchanged (pattern ind : string) :
  TemplateSpec.whitespace_only (List.hd EmptyString (lines pattern)) = false ->
  TemplateSpec.whitespace_only (List.last (lines pattern) EmptyString) = false ->
  (forall line, In line (lines pattern) -> TemplateSpec.dedent_line ind line = line) ->
  template pattern ind = Ok pattern.
Proof.
  intros H L D. rewrite template_unfolds. f_equal.
  unfold TemplateSpec.template_text.
  destruct (Py.contains Py.nl_char pattern); [|reflexivity].
  fold (lines pattern). rewrite H, L.
  rewrite (map_ext_in _ (fun line => line) _ D), map_id.
  apply join_split.
Qed.

(** ** The keyword ordering utility: what a second look shows *)

Section SortKwargsFurther.
Variable V : Type.
Implicit Types (kw d kwargs : Py.dict V) (k x : string).

(** The inner loop looks at its dictionary through lookups only. *)
Lemma picked_ext (names : list string) kw d :
  (forall k, Py.dict_get kw k = Py.dict_get d k) ->
  picked kw names = picked d names.
Proof.
  revert kw d. induction names as [|x names IH]; intros kw d E; [reflexivity|].
  cbn [picked]. rewrite <- (E x).
  destruct (Py.dict_get kw x) as [v|].
  - f_equal. apply IH. intros k. now rewrite !dict_get_remove, E.
  - now apply IH.
Qed.

Lemma picked_In_names kw (names : list string) k (v : V) :
  In (k, v) (picked kw names) -> In k names.
Proof.
  intros I. assert (K : In k (Py.keys (picked kw names))).
  { unfold Py.keys. change k with (fst (k, v)). now apply in_map. }
  rewrite picked_keys in K. apply first_occurrences_In, present_In in K. tauto.
Qed.

Lemma without_app_dict kw d (names : list string) :
  without (kw ++ d) names = without kw names ++ without d names.
Proof. unfold without. apply filter_app. Qed.

Lemma without_picked kw (names others : list string) :
  incl names others -> without (picked kw names) others = [].
Proof.
  intros Incl. unfold without.
  assert (F : forall entry, In entry (picked kw names) ->
                            negb (mem (fst entry) others) = false).
  { intros [k v] I. apply picked_In_names in I. apply negb_false_iff.
    apply mem_In. now apply Incl. }
  induction (picked kw names) as [|entry l IH]; [reflexivity|].
  cbn [filter]. rewrite (F entry) by now left.
  apply IH. intros e I. apply F. now right.
Qed.

Lemma without_without kw (names : list string) :
  without (without kw names) names = without kw names.
Proof.
  unfold without. rewrite filter_filter. apply filter_ext. intros entry.
  now destruct (mem (fst entry) names).
Qed.

Lemma outcome_wf kwargs (ordering : list group) :
  Py.dict_wf kwargs ->
  Py.dict_wf (picked kwargs (mentioned (pre_wildcard ordering))
              ++ without kwargs (mentioned ordering)
              ++ picked (without kwargs (mentioned (pre_wildcard ordering)))
                   (mentioned (post_wildcard ordering))).
Proof.
  intros WF. unfold Py.dict_wf. rewrite (outcome_keys ordering WF).
  apply first_occurrences_NoDup.
Qed.

(** A call that returns had no unknown string in its ordering. *)
Lemma returns_wildcards_only kwargs (ordering : list group) (sorted_dict : Py.dict V) :
  fst (sort_kwargs kwargs ordering) = Ok sorted_dict ->
  wildcards_only ordering = true.
Proof.
  intros R. destruct (wildcards_only ordering) eqn:W; [reflexivity|].
  destruct (first_unknown_group _ W) as (b & s & r & -> & Wb & S).
  rewrite sort_kwargs_raises in R by assumption. discriminate.
Qed.

(** Sorting what was sorted changes nothing. *)
Lemma sort_kwargs_again kwargs (ordering : list group) (sorted_dict : Py.dict V) :
  Py.dict_wf kwargs ->
  fst (sort_kwargs kwargs ordering) = Ok sorted_dict ->
  fst (sort_kwargs sorted_dict ordering) = Ok sorted_dict.
Proof.
  intros WF R. pose proof (returns_wildcards_only _ _ R) as W.
  rewrite (sort_kwargs_runs ordering WF W) in R. cbn [fst] in R.
  injection R as <-.
  rewrite (sort_kwargs_runs ordering (outcome_wf ordering WF) W). cbn [fst].
  f_equal.
  match goal with
  | |- picked ?s ?pre ++ without ?s ?all ++ picked (without ?s ?pre) ?post = _ =>
      assert (P1 : picked s pre = picked kwargs pre)
        by (apply picked_ext; intros k; apply outcome_values);
      assert (P2 : picked (without s pre) post = picked (without kwargs pre) post)
        by (apply picked_ext; intros k;
            now rewrite !dict_get_without, outcome_values);
      assert (U : without s all = without kwargs all)
  end.
  { rewrite !without_app_dict, without_without.
    rewrite !without_picked; [now rewrite app_nil_r | |].
    - rewrite (mentioned_split ordering). now apply incl_appr, incl_refl.
    - rewrite (mentioned_split ordering). now apply incl_appl, incl_refl. }
  now rewrite P1, P2, U.
Qed.

Lemma wf_NoDup_entries d : Py.dict_wf d -> NoDup d.
Proof.
  unfold Py.dict_wf, Py.keys. induction d as [|[k v] d IH]; [constructor|].
  cbn [map fst]. intros N. inversion N as [|? ? NI N']; subst.
  constructor; [|now apply IH].
  intros I. apply NI. change k with (fst (k, v)). now apply in_map.
Qed.

(** X3. [sort_kwargs] is idempotent on what it returns: sorting the
    returned mapping again with the same ordering returns it as it is. *)
Theorem sort_kwargs_idempotent kwargs (ordering : list group) (sorted_dict : Py.dict V) :
  Py.dict_wf kwargs ->
  fst (sort_kwargs kwargs ordering) = Ok sorted_dict ->
  fst (sort_kwargs sorted_dict ordering) = Ok sorted_dict.
Proof. apply sort_kwargs_again. Qed.

(** X4. The returned mapping is a rearrangement of the caller's entries:
    it is a well-formed dictionary with exactly the entries of [kwargs],
    none added, none lost, none changed. *)
Theorem sort_kwargs_rearranges kwargs (ordering : list group) (sorted_dict : Py.dict V) :
  Py.dict_wf kwargs ->
  fst (sort_kwargs kwargs ordering) = Ok sorted_dict ->
  Py.dict_wf sorted_dict /\ Permutation sorted_dict kwargs.
Proof.
  intros WF R. pose proof (returns_wildcards_only _ _ R) as W.
  rewrite (sort_kwargs_runs ordering WF W) in R. cbn [fst] in R.
  injection R as <-.
  pose proof (outcome_wf ordering WF) as WS. split; [exact WS|].
  apply NoDup_Permutation; [now apply wf_NoDup_entries.. |].
  intros [k v]. split; intros I.
  - apply dict_get_In. rewrite <- (outcome_values kwargs ordering k).
    now apply In_dict_get.
  - apply dict_get_In. rewrite outcome_values. now apply In_dict_get.
Qed.

Lemma picked_nothing kw (names : list string) :
  (forall k, In k names -> Py.dict_in k kw = false) -> picked kw names = [].
Proof.
  induction names as [|x names IH]; intros H; [reflexivity|].
  cbn [picked]. pose proof (H x (or_introl eq_refl)) as X.
  unfold Py.dict_in in X. destruct (Py.dict_get kw x); [discriminate|].
  apply IH. intros k I. apply H. now right.
Qed.

(** X5. Names that are not keys are skipped: when no name of any group is
    a key of [kwargs] (an empty ordering, wildcards only, unknown names),
    the call returns the entries of [kwargs] in their order and leaves the
    caller's mapping as it was. *)
Theorem sort_kwargs_nothing_to_place kwargs (ordering : list group) :
  Py.dict_wf kwargs ->
  wildcards_only ordering = true ->
  (forall k, In k (mentioned ordering) -> Py.dict_in k kwargs = false) ->
  sort_kwargs kwargs ordering = (Ok kwargs, kwargs).
Proof.
  intros WF W H. rewrite (sort_kwargs_runs ordering WF W).
  rewrite (without_unrelated _ _ H).
  rewrite !picked_nothing; [now rewrite app_nil_r | |].
  - intros k I. unfold Py.dict_in. rewrite dict_get_without.
    destruct (mem k (mentioned (pre_wildcard ordering))); [reflexivity|].
    apply H. rewrite mentioned_split. apply in_or_app. now right.
  - intros k I. apply H. rewrite mentioned_split. apply in_or_app. now left.
Qed.

(** X6. Only the names and the side of the first wildcard they stand on
    matter: two orderings without unknown strings that list the same names
    before their first wildcard and the same names after it give the same
    outcome, however the names are grouped and however many wildcards
    follow the first. *)
Theorem sort_kwargs_grouping_irrelevant kwargs (ordering other : list group) :
  Py.dict_wf kwargs ->
  wildcards_only ordering = true ->
  wildcards_only other = true ->
  mentioned (pre_wildcard ordering) = mentioned (pre_wildcard other) ->
  mentioned (post_wildcard ordering) = mentioned (post_wildcard other) ->
  sort_kwargs kwargs ordering = sort_kwargs kwargs other.
Proof.
  intros WF W W' P Q.
  rewrite (sort_kwargs_runs ordering WF W), (sort_kwargs_runs other WF W').
  now rewrite (mentioned_split ordering), (mentioned_split other), P, Q.
Qed.

End SortKwargsFurther.

(** ** More on loops that may raise *)

Section ReaderLoops.
Variables (Ctx A B St : Type).

Lemma for_each_app (body : St -> A -> reader Ctx St) (a b : list A)
  (st : St) (ctx : Ctx) :
  for_each body (a ++ b) st ctx
  = match for_each body a st ctx with
    | Ok st' => for_each body b st' ctx
    | Raise e => Raise e
    end.
Proof.
  revert st. induction a as [|x a IH]; intros st; [reflexivity|].
  cbn [app for_each]. msimpl. destruct (body st x ctx); [apply IH | reflexivity].
Qed.

Lemma for_each_map (body' : St -> B -> reader Ctx St) (body : St -> A -> reader Ctx St)
  (g : A -> B) (items : list A) :
  (forall st x ctx, body' st (g x) ctx = body st x ctx) ->
  forall st ctx, for_each body' (map g items) st ctx = for_each body items st ctx.
Proof.
  intros E. induction items as [|x items IH]; intros st ctx; [reflexivity|].
  cbn [map for_each]. msimpl. rewrite E.
  destruct (body st x ctx); [apply IH | reflexivity].
Qed.

Lemma for_each_ext_in (body body' : St -> A -> reader Ctx St) (items : list A) :
  (forall x, In x items -> forall st ctx, body st x ctx = body' st x ctx) ->
  forall st ctx, for_each body items st ctx = for_each body' items st ctx.
Proof.
  induction items as [|x items IH]; intros E st ctx; [reflexivity|].
  cbn [for_each]. msimpl. rewrite (E x (or_introl eq_refl)).
  destruct (body' st x ctx); [|reflexivity].
  apply IH. intros y I. apply E. now right.
Qed.

End ReaderLoops.

Section CollectingFurther.
Variables (Ctx A I : Type).
Variable produce : A -> reader Ctx (list I * string).
Variable body : list I * list string -> A -> reader Ctx (list I * list string).

Hypothesis body_extends :
  forall acc x ctx,
    body acc x ctx
    = match produce x ctx with
      | Ok (i, s) => Ok (fst acc ++ i, snd acc ++ [s])
      | Raise e => Raise e
      end.

(** The lists a loop starts from are only a prefix of what it returns. *)
Lemma for_each_from_empty (items : list A) (acc : list I * list string) (ctx : Ctx) :
  for_each body items acc ctx
  = match for_each body items ([], []) ctx with
    | Ok (i, s) => Ok (fst acc ++ i, snd acc ++ s)
    | Raise e => Raise e
    end.
Proof.
  revert acc. induction items as [|x items IH]; intros acc.
  - cbn [for_each]. msimpl. cbn. rewrite !app_nil_r. now destruct acc.
  - cbn [for_each]. msimpl. rewrite !body_extends.
    destruct (produce x ctx) as [[i s]|e]; [|reflexivity].
    rewrite IH. rewrite (IH (fst ([], []) ++ i, snd ([], []) ++ [s])).
    cbn [fst snd app].
    destruct (for_each body items ([], []) ctx) as [[i' s']|e]; [|reflexivity].
    now rewrite <- !app_assoc.
Qed.

(** A loop that raises does so at an item whose predecessors all
    succeeded. *)
Lemma for_each_raise_inv (items : list A) (acc : list I * list string) (ctx : Ctx)
  (e : exception) :
  for_each body items acc ctx = Raise e ->
  exists before x after entries,
    items = before ++ x :: after
    /\ Forall2 (fun y entry => produce y ctx = Ok entry) before entries
    /\ produce x ctx = Raise e.
Proof.
  revert acc. induction items as [|x items IH]; intros acc.
  - cbn [for_each]. msimpl. discriminate.
  - cbn [for_each]. msimpl. rewrite body_extends.
    destruct (produce x ctx) as [[i s]|e'] eqn:P.
    + intros R. destruct (IH _ R) as (before & y & after & entries & -> & F & Y).
      exists (x :: before), y, after, ((i, s) :: entries).
      split; [reflexivity|]. split; [now constructor | exact Y].
    + intros [= ->]. exists [], x, items, []. split; [reflexivity|].
      split; [constructor | exact P].
Qed.

End CollectingFurther.

Lemma Forall2_rendered (A B C : Type) (P : A -> B -> Prop) (Q : A -> C -> Prop)
  (g : A * B -> C) (l : list A) (typed : list B) :
  (forall x y, P x y -> Q x (g (x, y))) ->
  Forall2 P l typed -> Forall2 Q l (map g (combine l typed)).
Proof.
  intros H. induction 1 as [|x y l typed' Pxy F IH]; cbn; constructor; auto.
Qed.

Lemma combine_app_Forall2 (A B : Type) (P : A -> B -> Prop)
  (l1 l2 : list A) (t1 t2 : list B) :
  Forall2 P l1 t1 ->
  combine (l1 ++ l2) (t1 ++ t2) = combine l1 t1 ++ combine l2 t2.
Proof. induction 1 as [|x y l t' _ F IH]; cbn; [reflexivity | now rewrite IH]. Qed.

Lemma map_combine_snd (A B C : Type) (P : A -> B -> Prop) (f : B -> C)
  (l : list A) (typed : list B) :
  Forall2 P l typed ->
  map (fun pair => f (snd pair)) (combine l typed) = map f typed.
Proof. induction 1 as [|x y l t' _ F IH]; cbn; [reflexivity | now rewrite IH]. Qed.

(** ** The fields of a model: the base class and the failures *)

Section FieldsFurther.
Context {T : Types} {C : Collaborators}.
Variables (self : instance) (model : ModelMeta).
Hypothesis self_has_model : self_model self = Ok model.

(** The base class renders a field as its name in underscore form, a
    colon and the type text, whatever the flag. *)
Lemma base_field_entry (optional : bool) (field : string) (meta : MetaData)
  (ctx : ContextInjectionType) (imports : ImportPathList) (typing : string) :
  Py.dict_get (type model) field = Some meta ->
  metadata_to_typing meta ctx = Ok (imports, typing) ->
  field_entry GenericModelCodeGenerator self model optional field ctx
  = Ok (imports, underscore field +++ ": " +++ typing).
Proof.
  intros G M. unfold field_entry, Py.dict_getitem. msimpl. rewrite G.
  cbn [cls_field_data GenericModelCodeGenerator]. unfold field_data. msimpl.
  rewrite M. unfold FIELD_render, lookup. cbn. now rewrite append_empty_r.
Qed.

Lemma fields_as_one_loop (cls : generator_class) (required optional : list string)
  (ctx : ContextInjectionType) :
  sort_fields model ctx = Ok (required, optional) ->
  fields cls self ctx
  = for_each (m := reader ContextInjectionType)
      (fun (acc : ImportPathList * list string) (tagged : bool * string) =>
         fields_body cls self (if fst tagged then 1 else 0) acc (snd tagged))
      (map (pair false) required ++ map (pair true) optional)
      (([] : ImportPathList), ([] : list string)) ctx.
Proof.
  intros S. unfold fields. msimpl. rewrite self_has_model, S.
  cbn [Py.enumerate List.length seq combine for_each]. msimpl.
  rewrite for_each_app.
  rewrite (for_each_map _ (fields_body cls self 0) (pair false) required)
    by reflexivity.
  match goal with
  | |- match ?a with _ => _ end = match ?b with _ => _ end =>
      change b with a; destruct a as [acc|e]; [|reflexivity]
  end.
  rewrite (for_each_map _ (fields_body cls self 1) (pair true) optional)
    by reflexivity.
  match goal with
  | |- match ?a with _ => _ end = ?b => change b with a; now destruct a
  end.
Qed.

Lemma tagged_body_extends (cls : generator_class)
  (acc : ImportPathList * list string) (tagged : bool * string)
  (ctx : ContextInjectionType) :
  fields_body cls self (if fst tagged then 1 else 0) acc (snd tagged) ctx
  = match field_entry cls self model (fst tagged) (snd tagged) ctx with
    | Ok (i, s) => Ok (fst acc ++ i, snd acc ++ [s])
    | Raise e => Raise e
    end.
Proof.
  rewrite (fields_body_extends cls self self_has_model). now destruct (fst tagged).
Qed.

Lemma fields_stop_at_failure (cls : generator_class) (required optional : list string)
  (ctx : ContextInjectionType) (before after : list (bool * string))
  (flag : bool) (field : string) (entries : list (ImportPathList * string))
  (e : exception) :
  sort_fields model ctx = Ok (required, optional) ->
  map (pair false) required ++ map (pair true) optional
  = before ++ (flag, field) :: after ->
  Forall2
    (fun tagged entry =>
       field_entry cls self model (fst tagged) (snd tagged) ctx = Ok entry)
    before entries ->
  field_entry cls self model flag field ctx = Raise e ->
  fields cls self ctx = Raise e.
Proof.
  intros S E F X. erewrite fields_as_one_loop by eassumption. rewrite E.
  apply (for_each_raises
           (fun tagged => field_entry cls self model (fst tagged) (snd tagged))
           _ (tagged_body_extends cls) after (flag, field) _ _ F X).
Qed.

(** X7. For the base class every field line is the field name in
    underscore form, a colon and a space, and the type text, with no
    default value, for required and optional fields alike: when every
    field the helper lists has a descriptor and a type text, [fields]
    returns these lines in required-then-optional order with the imports
    of the type texts. *)
Theorem base_fields_lines (required optional : list string)
  (ctx : ContextInjectionType) (typed : list (ImportPathList * string)) :
  sort_fields model ctx = Ok (required, optional) ->
  Forall2
    (fun field entry =>
       exists meta,
         Py.dict_get (type model) field = Some meta
         /\ metadata_to_typing meta ctx = Ok entry)
    (required ++ optional) typed ->
  fields GenericModelCodeGenerator self ctx
  = Ok (List.concat (map fst typed),
        map (fun pair => underscore (fst pair) +++ ": " +++ snd (snd pair))
          (combine (required ++ optional) typed)).
Proof.
  intros S F.
  set (line := fun pair : string * (ImportPathList * string) =>
                 (fst (snd pair), underscore (fst pair) +++ ": " +++ snd (snd pair))).
  apply (fields_collects GenericModelCodeGenerator self self_has_model ctx _ _ S).
  exists (map line (combine (required ++ optional) typed)).
  apply Forall2_app_inv_l in F. destruct F as (t1 & t2 & F1 & F2 & ->).
  assert (R : forall flag field entry,
            (exists meta, Py.dict_get (type model) field = Some meta
                          /\ metadata_to_typing meta ctx = Ok entry) ->
            field_entry GenericModelCodeGenerator self model flag field ctx
            = Ok (line (field, entry))).
  { intros flag field [i t] (meta & G & M). unfold line. cbn [fst snd].
    apply base_field_entry with (meta := meta); assumption. }
  assert (E : combine (required ++ optional) (t1 ++ t2)
              = combine required t1 ++ combine optional t2)
    by (eapply combine_app_Forall2; eassumption).
  split; [|split].
  - rewrite E, map_app. apply Forall2_app.
    + apply (Forall2_tagged false
               (fun o f entry =>
                  field_entry GenericModelCodeGenerator self model o f ctx = Ok entry)).
      eapply Forall2_rendered; [|eassumption]. intros x y H. now apply R.
    + apply (Forall2_tagged true
               (fun o f entry =>
                  field_entry GenericModelCodeGenerator self model o f ctx = Ok entry)).
      eapply Forall2_rendered; [|eassumption]. intros x y H. now apply R.
  - rewrite map_map. f_equal. symmetry.
    change (fun x => fst (line x)) with (fun x : string * (ImportPathList * string) =>
                                           fst (snd x)).
    eapply map_combine_snd. apply Forall2_app; eassumption.
  - now rewrite map_map.
Qed.

(** X8. An exception raised while a field is rendered, by the lookup of
    its descriptor or by [field_data], is the exception of [fields],
    unchanged: the fields before it were rendered and dropped, the fields
    after it are not looked at. *)
Theorem fields_first_failure (cls : generator_class) (required optional : list string)
  (ctx : ContextInjectionType) (before after : list (bool * string))
  (flag : bool) (field : string) (entries : list (ImportPathList * string))
  (e : exception) :
  sort_fields model ctx = Ok (required, optional) ->
  map (pair false) required ++ map (pair true) optional
  = before ++ (flag, field) :: after ->
  Forall2
    (fun tagged entry =>
       field_entry cls self model (fst tagged) (snd tagged) ctx = Ok entry)
    before entries ->
  field_entry cls self model flag field ctx = Raise e ->
  fields cls self ctx = Raise e.
Proof. apply fields_stop_at_failure. Qed.

(** X9. A name that the field-ordering helper lists and the model does not
    have makes [fields] raise [KeyError] with that name, once the fields
    before it have been rendered. *)
Theorem fields_missing_field (cls : generator_class) (required optional : list string)
  (ctx : ContextInjectionType) (before after : list (bool * string))
  (flag : bool) (field : string) (entries : list (ImportPathList * string)) :
  sort_fields model ctx = Ok (required, optional) ->
  map (pair false) required ++ map (pair true) optional
  = before ++ (flag, field) :: after ->
  Forall2
    (fun tagged entry =>
       field_entry cls self model (fst tagged) (snd tagged) ctx = Ok entry)
    before entries ->
  Py.dict_get (type model) field = None ->
  fields cls self ctx = Raise (KeyError field).
Proof.
  intros S E F G. eapply fields_stop_at_failure; try eassumption.
  unfold field_entry, Py.dict_getitem. msimpl. now rewrite G.
Qed.

End FieldsFurther.

(** ** The declaration, line by line *)

Section GenerateFurther.
Context {T : Types} {C : Collaborators}.
Variables (cls : generator_class) (self : instance).

(** X10. The lines of a declaration, top to bottom: one line ["@" + d]
    per decorator of the class, in the order of [decorators]; the header
    [class Name:]; for each nested text, in order, the lines of its
    indented form and one empty line; then one line per field, four
    spaces deep, or the placeholder when there is none. This holds when no
    decorator, name or field line holds a line break. *)
Theorem generate_lines (nested_classes : option (list string))
  (ctx : ContextInjectionType) (imports : ImportPathList) (text : string)
  (model : ModelMeta) (flds : list string) :
  generate cls self nested_classes ctx = Ok (imports, text) ->
  self_model self = Ok model ->
  fields cls self ctx = Ok (imports, flds) ->
  (forall d, In d (cls_decorators cls self) -> Py.contains Py.nl_char d = false) ->
  Py.contains Py.nl_char (name model) = false ->
  (forall f, In f flds -> Py.contains Py.nl_char f = false) ->
  lines text
  = map (fun decorator => "@" +++ decorator) (cls_decorators cls self)
    ++ ["class " +++ name model +++ ":"]
    ++ flat_map (fun code => lines (indent code) ++ [EmptyString])
         (nested_texts nested_classes)
    ++ match flds with
       | _ :: _ => map (fun field => "    " +++ field) flds
       | [] => [PLACEHOLDER]
       end.
Proof.
  intros G M F HD HN HF.
  erewrite generate_renders in G by eassumption. injection G as <-.
  rewrite lines_BODY_render. unfold body_blocks.
  rewrite !flat_map_app, lines_nested_blocks.
  rewrite (flat_map_of_map (fun code => lines code ++ [EmptyString]) indent).
  f_equal; [|f_equal; [|f_equal]].
  - apply flat_map_lines_plain. intros b I. apply in_map_iff in I.
    destruct I as (d & <- & I). rewrite contains_append. now rewrite (HD d I).
  - apply flat_map_lines_plain. intros b [<- | []].
    rewrite !contains_append. now rewrite HN.
  - apply flat_map_lines_plain. destruct flds as [|f fs].
    + intros b [<- | []]. reflexivity.
    + intros b I. apply in_map_iff in I. destruct I as (f' & <- & I).
      rewrite contains_append. now rewrite (HF f' I).
Qed.

End GenerateFurther.

(** ** The tree walker: siblings, depth, failures *)

(** Induction over a tree of nodes. *)
Lemma node_nested_ind {T : Types} (P : node -> Prop) :
  (forall model nested, Forall P nested -> P (Node model nested)) ->
  forall data, P data.
Proof.
  intros H. fix IH 1. intros [model nested]. apply H.
  induction nested as [|child nested IHn]; constructor; [apply IH | exact IHn].
Qed.

Section WalkerFurther.
Context {T : Types} {C : Collaborators}.
Variable cls : generator_class.

Lemma walker_from_empty (kw : Py.dict KwargValue) (structure : list node) (lvl : nat)
  (acc : ImportPathList * list string) (ctx : ContextInjectionType) :
  for_each (_generate_code_body cls kw lvl) structure acc ctx
  = match _generate_code structure cls kw lvl ctx with
    | Ok (i, s) => Ok (fst acc ++ i, snd acc ++ s)
    | Raise e => Raise e
    end.
Proof.
  unfold _generate_code.
  apply (for_each_from_empty _ _ (walker_body_extends cls kw lvl)).
Qed.

(** X11. Siblings are walked independently: the walk of two sequences of
    nodes one after the other is the walk of the first, then the walk of
    the second, with the imports and the declarations of the first in
    front; the first exception of either is the exception of the whole. *)
Theorem walker_concat (kw : Py.dict KwargValue) (first second : list node)
  (lvl : nat) (ctx : ContextInjectionType) :
  _generate_code (first ++ second) cls kw lvl ctx
  = match _generate_code first cls kw lvl ctx with
    | Raise e => Raise e
    | Ok (imports1, classes1) =>
        match _generate_code second cls kw lvl ctx with
        | Raise e => Raise e
        | Ok (imports2, classes2) =>
            Ok (imports1 ++ imports2, classes1 ++ classes2)
        end
    end.
Proof.
  unfold _generate_code at 1. unfold R. rewrite for_each_app.
  change (for_each (_generate_code_body cls kw lvl) first ([], []) ctx)
    with (_generate_code first cls kw lvl ctx).
  destruct (_generate_code first cls kw lvl ctx) as [[i1 c1]|e]; [|reflexivity].
  apply walker_from_empty.
Qed.

(** One iteration of the walk does the same at every depth. *)
Lemma walker_body_ignores_depth (kw : Py.dict KwargValue) :
  forall data lvl lvl' acc ctx,
    _generate_code_body cls kw lvl acc data ctx
    = _generate_code_body cls kw lvl' acc data ctx.
Proof.
  intros data. induction data as [model nested IH] using node_nested_ind.
  intros lvl lvl' [imports classes] ctx. cbn [_generate_code_body]. msimpl.
  rewrite (for_each_ext_in
             (_generate_code_body cls kw (lvl + 1))
             (_generate_code_body cls kw (lvl' + 1)) nested).
  - reflexivity.
  - intros child I acc ctx'. rewrite Forall_forall in IH. now apply IH.
Qed.

(** X12. The depth counter is bookkeeping only: the walk of a structure
    returns the same imports and declarations, or raises the same
    exception, from whatever depth it is started. *)
Theorem walker_ignores_depth (kw : Py.dict KwargValue) (structure : list node)
  (lvl lvl' : nat) (ctx : ContextInjectionType) :
  _generate_code structure cls kw lvl ctx = _generate_code structure cls kw lvl' ctx.
Proof.
  unfold _generate_code. apply for_each_ext_in.
  intros data _ acc ctx'. apply walker_body_ignores_depth.
Qed.

(** X13. The first node that fails ends the walk: when the nodes before
    it were walked, an exception from the walk of its children, or, once
    the children are rendered, from the call of the class that builds its
    generator or from [generate] on that generator, is the exception of
    the whole walk, whatever nodes follow. *)
Theorem walker_first_failure (kw : Py.dict KwargValue) (before after : list node)
  (data : node) (entries : list (ImportPathList * string)) (lvl : nat)
  (ctx : ContextInjectionType) (e : exception) :
  Forall2 (fun sibling entry => walked cls kw lvl ctx sibling (fst entry) (snd entry))
    before entries ->
  (_generate_code (node_nested data) cls kw (lvl + 1) ctx = Raise e
   \/ exists nested_imports nested_classes,
        _generate_code (node_nested data) cls kw (lvl + 1) ctx
        = Ok (nested_imports, nested_classes)
        /\ (construct cls (node_model data) kw = Raise e
            \/ exists gen,
                 construct cls (node_model data) kw = Ok gen
                 /\ generate cls gen (Some nested_classes) ctx = Raise e)) ->
  _generate_code (before ++ data :: after) cls kw lvl ctx = Raise e.
Proof.
  intros F X. unfold _generate_code.
  apply (for_each_raises _ _ (walker_body_extends cls kw lvl) after data
           (entries := entries)).
  - clear X. induction F as [|sibling [i s] before' entries' N F IH]; constructor;
      [|exact IH].
    now apply node_code_inv.
  - unfold node_code, generated. msimpl.
    destruct X as [-> | (ni & nc & -> & [-> | (gen & -> & ->)])]; reflexivity.
Qed.

End WalkerFurther.


(** ** The definitions at work *)

#[local] Existing Instance Demo.types.
#[local] Existing Instance Demo.collaborators.

(** The class body, as [template] hands it to the templating engine. *)
Example BODY_dedented :
  template BODY_pattern INDENT
  = Ok ("{%- for decorator in decorators -%}" +++ Py.nl
        +++ "@{{ decorator }}" +++ Py.nl
        +++ "{% endfor -%}" +++ Py.nl
        +++ "class {{ name }}:" +++ Py.nl
        +++ Py.nl
        +++ "{%- for code in nested %}" +++ Py.nl
        +++ "{{ code }}" +++ Py.nl
        +++ "{% endfor -%}" +++ Py.nl
        +++ Py.nl
        +++ "{%- if fields -%}" +++ Py.nl
        +++ "{%- for field in fields %}" +++ Py.nl
        +++ "    {{ field }}" +++ Py.nl
        +++ "{%- endfor %}" +++ Py.nl
        +++ "{%- else %}" +++ Py.nl
        +++ "    pass" +++ Py.nl
        +++ "{%- endif -%}").
Proof. reflexivity. Qed.

(** A line of the base class: the name in underscore form, the type text. *)
Example base_field_line (field : string) (meta : MetaData)
  (ctx : ContextInjectionType) :
  field_data ([] : instance) field meta false ctx
  = Ok (fst meta, [("name", field); ("type", snd meta)])
  /\ FIELD_render [("name", field); ("type", snd meta)]
     = field +++ ": " +++ snd meta.
Proof.
  split.
  - unfold field_data. destruct meta. reflexivity.
  - unfold FIELD_render, lookup. cbn. now rewrite append_empty_r.
Qed.

(** The example of the specification for C8: the helper returns [a], [c]
    as required and [b] as optional; the lines are those of [a], [c], [b]. *)
Lemma fields_required_then_optional_example :
  let self := Demo.built Demo.model_abc in
  let rendered := ["a: int"; "c: datetime.date"; "b: Optional[str]"] in
  self_model self = Ok Demo.model_abc
  /\ sort_fields Demo.model_abc [] = Ok (["a"; "c"], ["b"])
  /\ fields GenericModelCodeGenerator self [] = Ok (["datetime"; "typing"], rendered)
  /\ (fields GenericModelCodeGenerator self [] = Ok (["datetime"; "typing"], rendered)
      <-> exists entries,
            Forall2
              (fun tagged entry =>
                 field_entry GenericModelCodeGenerator self Demo.model_abc
                   (fst tagged) (snd tagged) [] = Ok entry)
              (map (pair false) ["a"; "c"] ++ map (pair true) ["b"]) entries
            /\ ["datetime"; "typing"] = List.concat (map fst entries)
            /\ rendered = map snd entries).
Proof.
  cbv zeta. split; [reflexivity|]. split; [reflexivity|]. split; [reflexivity|].
  apply (@fields_required_then_optional Demo.types Demo.collaborators
           GenericModelCodeGenerator
           (Demo.built Demo.model_abc)
           Demo.model_abc eq_refl ["a"; "c"] ["b"] []
           ["datetime"; "typing"]
           ["a: int"; "c: datetime.date"; "b: Optional[str]"]).
  reflexivity.
Defined.

(** A model with fields and a nested declaration: no placeholder line. *)
Lemma placeholder_iff_no_fields_example :
  let self := Demo.built Demo.model_abc in
  let inner := "class Inner:" +++ Py.nl +++ "    pass" in
  let text := "class Abc:" +++ Py.nl
              +++ "    class Inner:" +++ Py.nl
              +++ "        pass" +++ Py.nl
              +++ Py.nl
              +++ "    a: int" +++ Py.nl
              +++ "    c: datetime.date" +++ Py.nl
              +++ "    b: Optional[str]" in
  generate GenericModelCodeGenerator self (Some [inner]) []
  = Ok (["datetime"; "typing"], text)
  /\ ~ In PLACEHOLDER (lines text).
Proof.
  cbv zeta.
  match goal with
  | |- ?run = Ok (?imports, ?text) /\ _ =>
      assert (G : run = Ok (imports, text)) by reflexivity;
      split; [exact G|];
      destruct (@placeholder_iff_no_fields Demo.types Demo.collaborators
                  GenericModelCodeGenerator
                  (Demo.built Demo.model_abc)
                  (Some ["class Inner:" +++ Py.nl +++ "    pass"]) []
                  imports text G)
        as (model & flds & M & F & _ & Absent)
  end.
  injection M as <-. injection F as <-.
  refine (proj2 (Absent _ _ _) _ _).
  - intros d [].
  - reflexivity.
  - intros code [<- | []]. cbn. intuition discriminate.
  - discriminate.
  - intros f [<- | [<- | [<- | []]]]; reflexivity.
Defined.

(** C4 as stated fails: a model without fields whose body holds a nested
    declaration still gets the placeholder line. *)
Lemma placeholder_with_nested_declaration :
  let self := Demo.built Demo.model_empty in
  let inner := "class Inner:" +++ Py.nl +++ "    pass" in
  let text := "class Empty:" +++ Py.nl
              +++ "    class Inner:" +++ Py.nl
              +++ "        pass" +++ Py.nl
              +++ Py.nl
              +++ "    pass" in
  generate GenericModelCodeGenerator self (Some [inner]) [] = Ok ([], text)
  /\ fields GenericModelCodeGenerator self [] = Ok ([], [])
  /\ lines text
     = ["class Empty:"; "    class Inner:"; "        pass"; ""; PLACEHOLDER]
  /\ In "    class Inner:" (lines text)
  /\ In PLACEHOLDER (lines text).
Proof.
  cbv zeta. repeat split; cbn; tauto.
Qed.

(** C3 as stated fails: the instance built with a keyword configuration
    holds the model and nothing else, and is the instance built without. *)
Lemma init_discards_kwargs :
  let kwargs := [("post_init_converters", "True")] in
  exists self,
    construct GenericModelCodeGenerator Demo.model_abc kwargs = Ok self
    /\ Py.keys self = ["model"]
    /\ Py.dict_get self "post_init_converters" = None
    /\ (forall attr, Py.dict_get self attr <> Some (AttrDict kwargs))
    /\ construct GenericModelCodeGenerator Demo.model_abc [] = Ok self.
Proof.
  cbv zeta. exists (Demo.built Demo.model_abc). repeat split. intros attr. cbn.
  destruct (String.eqb attr "model"); discriminate.
Qed.

(** A keyword configuration with the key [model] is refused, whatever
    else it holds. *)
Lemma init_refuses_model_keyword :
  construct GenericModelCodeGenerator Demo.model_abc
    [("frozen", "True"); ("model", "other")]
  = Raise (TypeError "model").
Proof. reflexivity. Qed.

(** The same keyword configuration ends a whole call of [generate_code],
    with the slot of the resolution context given back. *)
Example generate_code_refuses_model_keyword :
  generate_code (Demo.two_roots, [("pkg.A", "A")]) GenericModelCodeGenerator
    (Some [("frozen", "True"); ("model", "other")]) OBJECTS_DELIMITER
    [("active", "before")]
  = (Raise (TypeError "model"), [("active", "before")]).
Proof. reflexivity. Qed.

(** The example of the specification for C1: two roots, no imports. *)
Lemma generate_code_layout_example :
  let decl1 := "class A:" +++ Py.nl +++ "    pass" in
  let decl2 := "class B:" +++ Py.nl +++ "    pass" in
  _generate_code Demo.two_roots GenericModelCodeGenerator (or_empty None) 0 []
  = Ok ([], [decl1; decl2])
  /\ fst (generate_code (Demo.two_roots, []) GenericModelCodeGenerator None
            OBJECTS_DELIMITER [("active", "before")])
     = Ok (decl1 +++ OBJECTS_DELIMITER +++ decl2 +++ Py.nl).
Proof.
  cbv zeta.
  match goal with
  | |- ?walk = Ok (?imports, ?classes) /\ _ =>
      assert (W : walk = Ok (imports, classes)) by reflexivity;
      split; [exact W|];
      destruct (@generate_code_layout Demo.types Demo.collaborators
                  GenericModelCodeGenerator None Demo.two_roots []
                  OBJECTS_DELIMITER [("active", "before")] imports classes W)
        as (NoImports & _)
  end.
  exact (NoImports eq_refl).
Defined.


(** The slot of the resolution context around a call: the walk sees the
    mapping of the structure, the slot is back afterwards. *)
Example context_restored :
  generate_code (Demo.two_roots, [("pkg.A", "A")]) GenericModelCodeGenerator None
    OBJECTS_DELIMITER [("active", "before")]
  = (Ok ("class A:" +++ Py.nl +++ "    pass" +++ OBJECTS_DELIMITER
         +++ "class B:" +++ Py.nl +++ "    pass" +++ Py.nl),
     [("active", "before")]).
Proof. reflexivity. Qed.


(** ** Part III at work *)

Lemma template_undoes_indentation_example :
  Py.contains Py.nl_char INDENT = false
  /\ Py.contains Py.nl_char "    " = false
  /\ TemplateSpec.whitespace_only "    " = true
  /\ template
       (Py.nl +++ Py.join Py.nl
                    (map (fun line => INDENT +++ line)
                       (lines ("class A:" +++ Py.nl +++ "    pass")))
        +++ Py.nl +++ "    ")
       INDENT
     = Ok ("class A:" +++ Py.nl +++ "    pass").
Proof.
  split; [reflexivity|]. split; [reflexivity|]. split; [reflexivity|].
  apply (template_undoes_indentation ("class A:" +++ Py.nl +++ "    pass")
           INDENT "    "); reflexivity.
Defined.

Lemma template_flat_pattern_unchanged_example :
  let pattern := "a:" +++ Py.nl +++ "  b" in
  TemplateSpec.whitespace_only (List.hd EmptyString (lines pattern)) = false
  /\ TemplateSpec.whitespace_only (List.last (lines pattern) EmptyString) = false
  /\ template pattern INDENT = Ok pattern.
Proof.
  cbv zeta. split; [reflexivity|]. split; [reflexivity|].
  apply template_flat_pattern_unchanged; [reflexivity | reflexivity |].
  intros line [<- | [<- | []]]; reflexivity.
Defined.

Lemma sort_kwargs_idempotent_example :
  let kwargs := [("x", 1); ("y", 2); ("z", 3)] in
  let ordering := [GroupNames ["y"]; GroupStr "*"; GroupNames ["x"]] in
  let sorted_dict := [("y", 2); ("z", 3); ("x", 1)] in
  Py.dict_wf kwargs
  /\ fst (sort_kwargs kwargs ordering) = Ok sorted_dict
  /\ fst (sort_kwargs sorted_dict ordering) = Ok sorted_dict.
Proof.
  cbv zeta.
  assert (WF : Py.dict_wf [("x", 1); ("y", 2); ("z", 3)]).
  { unfold Py.dict_wf. cbn.
    repeat (constructor; [cbn; intuition discriminate|]). constructor. }
  split; [exact WF|]. split; [reflexivity|].
  exact (@sort_kwargs_idempotent nat [("x", 1); ("y", 2); ("z", 3)]
           [GroupNames ["y"]; GroupStr "*"; GroupNames ["x"]]
           [("y", 2); ("z", 3); ("x", 1)] WF eq_refl).
Defined.

Lemma sort_kwargs_rearranges_example :
  let kwargs := [("x", 1); ("y", 2); ("z", 3)] in
  let ordering := [GroupNames ["y"]; GroupStr "*"; GroupNames ["x"]] in
  let sorted_dict := [("y", 2); ("z", 3); ("x", 1)] in
  Py.dict_wf kwargs
  /\ fst (sort_kwargs kwargs ordering) = Ok sorted_dict
  /\ Py.dict_wf sorted_dict /\ Permutation sorted_dict kwargs.
Proof.
  cbv zeta.
  assert (WF : Py.dict_wf [("x", 1); ("y", 2); ("z", 3)]).
  { unfold Py.dict_wf. cbn.
    repeat (constructor; [cbn; intuition discriminate|]). constructor. }
  split; [exact WF|]. split; [reflexivity|].
  exact (@sort_kwargs_rearranges nat [("x", 1); ("y", 2); ("z", 3)]
           [GroupNames ["y"]; GroupStr "*"; GroupNames ["x"]]
           [("y", 2); ("z", 3); ("x", 1)] WF eq_refl).
Defined.

Lemma sort_kwargs_nothing_to_place_example :
  let kwargs := [("x", 1); ("y", 2)] in
  let ordering := [GroupNames ["frozen"]; GroupStr "*"; GroupNames ["order"]] in
  Py.dict_wf kwargs
  /\ wildcards_only ordering = true
  /\ sort_kwargs kwargs ordering = (Ok kwargs, kwargs).
Proof.
  cbv zeta.
  assert (WF : Py.dict_wf [("x", 1); ("y", 2)]).
  { unfold Py.dict_wf. cbn.
    repeat (constructor; [cbn; intuition discriminate|]). constructor. }
  split; [exact WF|]. split; [reflexivity|].
  apply (@sort_kwargs_nothing_to_place nat [("x", 1); ("y", 2)]
           [GroupNames ["frozen"]; GroupStr "*"; GroupNames ["order"]] WF eq_refl).
  intros k [<- | [<- | []]]; reflexivity.
Defined.

(** One group of two names or two groups of one, one wildcard or two. *)
Lemma sort_kwargs_grouping_irrelevant_example :
  let kwargs := [("x", 1); ("y", 2); ("z", 3)] in
  let ordering := [GroupNames ["z"; "y"]; GroupStr "*"; GroupNames ["x"]] in
  let other := [GroupNames ["z"]; GroupNames ["y"]; GroupStr "*"; GroupStr "*";
                GroupNames ["x"]] in
  Py.dict_wf kwargs
  /\ sort_kwargs kwargs ordering = sort_kwargs kwargs other.
Proof.
  cbv zeta.
  assert (WF : Py.dict_wf [("x", 1); ("y", 2); ("z", 3)]).
  { unfold Py.dict_wf. cbn.
    repeat (constructor; [cbn; intuition discriminate|]). constructor. }
  split; [exact WF|].
  apply (@sort_kwargs_grouping_irrelevant nat [("x", 1); ("y", 2); ("z", 3)]
           [GroupNames ["z"; "y"]; GroupStr "*"; GroupNames ["x"]]
           [GroupNames ["z"]; GroupNames ["y"]; GroupStr "*"; GroupStr "*";
            GroupNames ["x"]] WF); reflexivity.
Defined.

Lemma base_fields_lines_example :
  let self := Demo.built Demo.model_abc in
  self_model self = Ok Demo.model_abc
  /\ sort_fields Demo.model_abc [] = Ok (["a"; "c"], ["b"])
  /\ fields GenericModelCodeGenerator self []
     = Ok (["datetime"; "typing"],
           ["a: int"; "c: datetime.date"; "b: Optional[str]"]).
Proof.
  cbv zeta. split; [reflexivity|]. split; [reflexivity|].
  assert (Typed : Forall2
            (fun field entry =>
               exists meta, Py.dict_get (type Demo.model_abc) field = Some meta
                            /\ metadata_to_typing meta [] = Ok entry)
            (["a"; "c"] ++ ["b"])
            [([], "int"); (["datetime"], "datetime.date");
             (["typing"], "Optional[str]")]).
  { repeat constructor; eexists; split; reflexivity. }
  exact (@base_fields_lines Demo.types Demo.collaborators
           (Demo.built Demo.model_abc)
           Demo.model_abc eq_refl ["a"; "c"] ["b"] [] _ eq_refl Typed).
Defined.

(** The second of three fields cannot be resolved: the first was rendered,
    the third is never reached. *)
Lemma fields_first_failure_example :
  let self := Demo.built Faulty.model_broken in
  field_entry Faulty.generator self Faulty.model_broken false "a" []
  = Ok ([], "a: int")
  /\ field_entry Faulty.generator self Faulty.model_broken false "b" []
     = Raise (Propagated "unresolved reference")
  /\ @fields Demo.types Faulty.collaborators Faulty.generator self []
     = Raise (Propagated "unresolved reference").
Proof.
  cbv zeta. split; [reflexivity|]. split; [reflexivity|].
  assert (Before : Forall2
            (fun tagged entry =>
               field_entry Faulty.generator
                 (Demo.built Faulty.model_broken)
                 Faulty.model_broken (fst tagged) (snd tagged) []
               = Ok entry)
            [(false, "a")] [([], "a: int")]).
  { repeat constructor. }
  exact (@fields_first_failure Demo.types Faulty.collaborators
           (Demo.built Faulty.model_broken)
           Faulty.model_broken eq_refl Faulty.generator
           ["a"; "b"; "c"] [] [] [(false, "a")] [(false, "c")] false "b"
           [([], "a: int")] (Propagated "unresolved reference")
           eq_refl eq_refl Before eq_refl).
Defined.

(** The helper lists a field the model does not have. *)
Lemma fields_missing_field_example :
  let self := Demo.built Faulty.model_haunted in
  @sort_fields Demo.types Faulty.collaborators Faulty.model_haunted []
  = Ok (["a"], ["ghost"])
  /\ Py.dict_get (type Faulty.model_haunted) "ghost" = None
  /\ @fields Demo.types Faulty.collaborators Faulty.generator self []
     = Raise (KeyError "ghost").
Proof.
  cbv zeta. split; [reflexivity|]. split; [reflexivity|].
  assert (Before : Forall2
            (fun tagged entry =>
               field_entry Faulty.generator
                 (Demo.built Faulty.model_haunted)
                 Faulty.model_haunted (fst tagged) (snd tagged) []
               = Ok entry)
            [(false, "a")] [([], "a: int")]).
  { repeat constructor. }
  exact (@fields_missing_field Demo.types Faulty.collaborators
           (Demo.built Faulty.model_haunted)
           Faulty.model_haunted eq_refl Faulty.generator
           ["a"] ["ghost"] [] [(false, "a")] [] true "ghost"
           [([], "a: int")] eq_refl eq_refl Before eq_refl).
Defined.

Lemma generate_lines_example :
  let self := Demo.built Demo.model_abc in
  let inner := "class Inner:" +++ Py.nl +++ "    pass" in
  exists imports text,
    generate GenericModelCodeGenerator self (Some [inner]) [] = Ok (imports, text)
    /\ lines text
       = ["class Abc:";
          "    class Inner:";
          "        pass";
          "";
          "    a: int";
          "    c: datetime.date";
          "    b: Optional[str]"].
Proof.
  cbv zeta.
  destruct (generate GenericModelCodeGenerator
              (Demo.built Demo.model_abc)
              (Some ["class Inner:" +++ Py.nl +++ "    pass"]) [])
    as [[imports text]|e] eqn:G; [|discriminate G].
  exists imports, text. split; [reflexivity|].
  assert (I : imports = ["datetime"; "typing"]).
  { vm_compute in G. now injection G as <- _. }
  subst imports.
  rewrite (@generate_lines Demo.types Demo.collaborators
             GenericModelCodeGenerator
             (Demo.built Demo.model_abc)
             (Some ["class Inner:" +++ Py.nl +++ "    pass"]) []
             ["datetime"; "typing"] text Demo.model_abc
             ["a: int"; "c: datetime.date"; "b: Optional[str]"]
             G eq_refl eq_refl).
  - reflexivity.
  - intros d [].
  - reflexivity.
  - intros f [<- | [<- | [<- | []]]]; reflexivity.
Defined.

(** The first root is walked, the walk of the children of the second
    raises, the third root is never reached. *)
Lemma walker_first_failure_example :
  let first := Node (Demo.model_one "First" "os" "f") [] in
  let parent := Node (Demo.model_one "Parent" "re" "p")
                  [Node Faulty.model_broken []] in
  let last := Node (Demo.model_one "Last" "sys" "l") [] in
  walked Faulty.generator [] 0 [] first ["os"]
    ("class First:" +++ Py.nl +++ "    f: Any")
  /\ @_generate_code Demo.types Faulty.collaborators (node_nested parent)
       Faulty.generator [] (0 + 1) []
     = Raise (Propagated "unresolved reference")
  /\ @_generate_code Demo.types Faulty.collaborators
       ([first] ++ parent :: [last]) Faulty.generator [] 0 []
     = Raise (Propagated "unresolved reference").
Proof.
  cbv zeta.
  assert (First : walked Faulty.generator [] 0 []
                    (Node (Demo.model_one "First" "os" "f") []) ["os"]
                    ("class First:" +++ Py.nl +++ "    f: Any")).
  { exists [], [], ["os"]. repeat split. }
  split; [exact First|]. split; [reflexivity|].
  apply (@walker_first_failure Demo.types Faulty.collaborators
           Faulty.generator [] [Node (Demo.model_one "First" "os" "f") []]
           [Node (Demo.model_one "Last" "sys" "l") []]
           (Node (Demo.model_one "Parent" "re" "p")
              [Node Faulty.model_broken []])
           [(["os"], "class First:" +++ Py.nl +++ "    f: Any")]
           0 [] (Propagated "unresolved reference")).
  - constructor; [exact First | constructor].
  - left. reflexivity.
Defined.
